(** * Digraph.hpp: an adjacency-list directed graph

    A shallow embedding of the class template [Digraph<VertexInfo, EdgeInfo>]
    of [src/MapGraphs/Digraph.hpp], followed by the properties of its member
    functions.

    Conventions of the embedding:
    - [int] vertex numbers are [Z]; no arithmetic is ever done on them.
      Values converted to [int] from a container size go through [to_int].
    - [double] is the binary64 type [float] of the kernel.
    - [std::map<int, T>] is an association list kept in ascending key order
      (the order in which the C++ iterators walk it), see [StdMap].
    - [std::list] and [std::vector] are [list].
    - a [const] member function is a function of the graph returning a
      [result]; a mutating member function is a computation in the monad
      [M], whose outcome records the graph both on normal return and at the
      point where an exception leaves the function.
    - an uninitialised local that the code reads is an explicit argument of
      the function (the indeterminate value it happens to hold).
    - behaviour the language leaves undefined (stepping an iterator that
      [erase] has invalidated, flowing off the end of a value-returning
      function) is the outcome [Undefined] / [UB]. *)

From Stdlib Require Import ZArith String List Bool Floats Lia.
Import ListNotations.

Local Open Scope Z_scope.

(** ** Integer conversions *)

(** Conversion of an unbounded value to a 32-bit [int] (two's complement). *)
Definition to_int (z : Z) : Z := (z + 2 ^ 31) mod 2 ^ 32 - 2 ^ 31.

(** [n - 1] computed on [size_t] (64-bit, unsigned). *)
Definition size_t_pred (n : nat) : Z := (Z.of_nat n - 1) mod 2 ^ 64.

(** ** Exceptions and results *)

(** [DigraphException] carries its reason; [std::map::at] throws
    [std::out_of_range]. *)
Inductive exn : Type :=
| DigraphException (reason : string)
| out_of_range.

Definition reason (e : exn) : option string :=
  match e with
  | DigraphException r => Some r
  | out_of_range => None
  end.

(** The result of a [const] member function. [OutOfFuel] only arises from
    the two functions whose loops or recursion are bounded by fuel here. *)
Inductive result (A : Type) : Type :=
| Ok (a : A)
| Throw (e : exn)
| Undefined
| OutOfFuel.

Arguments Ok {A} a.
Arguments Throw {A} e.
Arguments Undefined {A}.
Arguments OutOfFuel {A}.

(** ** [std::map<int, V>] *)

Module StdMap.

Definition t (V : Type) : Type := list (Z * V).

Section Ops.
Context {V : Type}.

Definition empty : t V := [].

(** [m.find(k)], [m.at(k)] ([None]: [end()], respectively [out_of_range]). *)
Fixpoint find (k : Z) (m : t V) : option V :=
  match m with
  | [] => None
  | (k', v) :: m' => if k =? k' then Some v else find k m'
  end.

(** [m.count(k)] *)
Definition count (k : Z) (m : t V) : Z :=
  match find k m with
  | Some _ => 1
  | None => 0
  end.

(** [m.insert({k, v})]: no effect when [k] is already a key. *)
Fixpoint insert (k : Z) (v : V) (m : t V) : t V :=
  match m with
  | [] => [(k, v)]
  | (k', v') :: m' =>
      if k <? k' then (k, v) :: m
      else if k =? k' then m
      else (k', v') :: insert k v m'
  end.

(** [m[k] = v] *)
Fixpoint assign (k : Z) (v : V) (m : t V) : t V :=
  match m with
  | [] => [(k, v)]
  | (k', v') :: m' =>
      if k <? k' then (k, v) :: m
      else if k =? k' then (k, v) :: m'
      else (k', v') :: assign k v m'
  end.

(** Reading [m[k]]: a missing key is first inserted with the
    value-initialised [dflt]. *)
Definition index (dflt : V) (k : Z) (m : t V) : V * t V :=
  match find k m with
  | Some v => (v, m)
  | None => (dflt, assign k dflt m)
  end.

(** [m.erase(k)] *)
Fixpoint erase (k : Z) (m : t V) : t V :=
  match m with
  | [] => []
  | (k', v') :: m' => if k =? k' then m' else (k', v') :: erase k m'
  end.

(** A write through the reference [m.at(k)]. *)
Fixpoint update (k : Z) (f : V -> V) (m : t V) : t V :=
  match m with
  | [] => []
  | (k', v') :: m' =>
      if k =? k' then (k', f v') :: m' else (k', v') :: update k f m'
  end.

Definition keys (m : t V) : list Z := map fst m.

Definition size (m : t V) : nat := length m.
End Ops.

End StdMap.

(** ** The structs *)

Module DigraphEdge.
Record t (EdgeInfo : Type) : Type := Build {
  fromVertex : Z;
  toVertex : Z;
  einfo : EdgeInfo
}.
Arguments Build {EdgeInfo} _ _ _.
Arguments fromVertex {EdgeInfo} _.
Arguments toVertex {EdgeInfo} _.
Arguments einfo {EdgeInfo} _.
End DigraphEdge.

Module DigraphVertex.
Record t (VertexInfo EdgeInfo : Type) : Type := Build {
  vinfo : VertexInfo;
  edges : list (DigraphEdge.t EdgeInfo)
}.
Arguments Build {VertexInfo EdgeInfo} _ _.
Arguments vinfo {VertexInfo EdgeInfo} _.
Arguments edges {VertexInfo EdgeInfo} _.
End DigraphVertex.

Definition pair_eqb (p q : Z * Z) : bool :=
  (fst p =? fst q) && (snd p =? snd q).

(** [std::find(temp.begin(), temp.end(), check) != temp.end()] *)
Definition found (check : Z * Z) (temp : list (Z * Z)) : bool :=
  existsb (pair_eqb check) temp.

(** [std::find(visited.begin(), visited.end(), v) != visited.end()] *)
Definition visitedb (v : Z) (visited : list Z) : bool :=
  existsb (Z.eqb v) visited.

(** ** The class template *)

Module Digraph.

Section Class.
Context {VertexInfo EdgeInfo : Type}.

Local Abbreviation Edge := (DigraphEdge.t EdgeInfo).
Local Abbreviation Vertex := (DigraphVertex.t VertexInfo EdgeInfo).

(** The only data member: [info]. *)
Definition t : Type := StdMap.t Vertex.

(** [Digraph()] *)
Definition empty : t := StdMap.empty.

(** *** Outcomes of mutating member functions *)

Inductive outcome (A : Type) : Type :=
| Done (a : A) (g : t)
| Raised (e : exn) (g : t)
| UB.

Definition M (A : Type) : Type := t -> outcome A.

Definition ret {A} (a : A) : M A := fun g => Done A a g.

Definition bind {A B} (c : M A) (k : A -> M B) : M B :=
  fun g =>
    match c g with
    | Done _ a g' => k a g'
    | Raised _ e g' => Raised B e g'
    | UB _ => UB B
    end.

Definition get : M t := fun g => Done t g g.
Definition put (g' : t) : M unit := fun _ => Done unit tt g'.
Definition throw {A} (e : exn) : M A := fun g => Raised A e g.
Definition undefined {A} : M A := fun _ => UB A.

(** A call of a [const] member function from a mutating one. The const
    functions called this way use no fuel. *)
Definition call {A} (f : t -> result A) : M A :=
  fun g =>
    match f g with
    | Ok a => Done A a g
    | Throw e => Raised A e g
    | Undefined | OutOfFuel => UB A
    end.

Notation "x <- c ;; k" := (bind c (fun x => k))
  (at level 61, c at next level, right associativity).
Notation "c ;;; k" := (bind c (fun _ => k))
  (at level 61, right associativity).

(** *** Queries *)

Definition vertices (g : t) : list Z := StdMap.keys g.

Definition edges (g : t) : list (Z * Z) :=
  flat_map
    (fun iter : Z * Vertex =>
       map (fun it => (DigraphEdge.fromVertex it, DigraphEdge.toVertex it))
           (DigraphVertex.edges (snd iter)))
    g.

(** [edges(int vertex)] *)
Definition edgesFrom (vertex : Z) (g : t) : result (list (Z * Z)) :=
  if StdMap.count vertex g =? 0 then
    Throw (DigraphException "Invalid vertex"%string)
  else
    match StdMap.find vertex g with
    | Some dv =>
        Ok (map (fun it => (vertex, DigraphEdge.toVertex it))
                (DigraphVertex.edges dv))
    | None => Undefined
    end.

Definition vertexInfo (vertex : Z) (g : t) : result VertexInfo :=
  if StdMap.count vertex g =? 0 then
    Throw (DigraphException "Invalid vertex"%string)
  else
    match StdMap.find vertex g with
    | Some dv => Ok (DigraphVertex.vinfo dv)
    | None => Throw out_of_range
    end.

Definition edgeInfo (fromVertex toVertex : Z) (g : t) : result EdgeInfo :=
  if (StdMap.count fromVertex g =? 0) || (StdMap.count toVertex g =? 0) then
    Throw (DigraphException "Invalid edge"%string)
  else
    match edgesFrom fromVertex g with
    | Ok temp =>
        if negb (found (fromVertex, toVertex) temp) then
          Throw (DigraphException "Invalid edge"%string)
        else
          match StdMap.find fromVertex g with
          | None => Throw out_of_range
          | Some dv =>
              match List.find
                      (fun it => DigraphEdge.toVertex it =? toVertex)
                      (DigraphVertex.edges dv) with
              | Some it => Ok (DigraphEdge.einfo it)
              | None => Undefined
              end
          end
    | Throw e => Throw e
    | Undefined => Undefined
    | OutOfFuel => OutOfFuel
    end.

Definition vertexCount (g : t) : Z := to_int (Z.of_nat (StdMap.size g)).

(** [edgeCount()]. The local [total] is declared without an initialiser
    and then accumulated into; [total0] is the value it starts with. *)
Definition edgeCount (total0 : Z) (g : t) : Z :=
  fold_left
    (fun total (iter : Z * Vertex) =>
       to_int (total + Z.of_nat (length (DigraphVertex.edges (snd iter)))))
    g total0.

(** [edgeCount(int vertex)] *)
Definition edgeCountOf (vertex : Z) (g : t) : result Z :=
  if StdMap.count vertex g =? 0 then
    Throw (DigraphException "Invalid vertex"%string)
  else
    match StdMap.find vertex g with
    | Some dv => Ok (to_int (Z.of_nat (length (DigraphVertex.edges dv))))
    | None => Throw out_of_range
    end.

(** *** Mutations *)

Definition addVertex (vertex : Z) (vinfo : VertexInfo) : M unit :=
  info <- get ;;
  if negb (StdMap.count vertex info =? 0) then
    throw (DigraphException "Vertex already exists"%string)
  else
    put (StdMap.insert vertex (DigraphVertex.Build vinfo []) info).

Definition addEdge (fromVertex toVertex : Z) (einfo : EdgeInfo) : M unit :=
  info <- get ;;
  if (StdMap.count fromVertex info =? 0)
     || (StdMap.count toVertex info =? 0) then
    throw (DigraphException "Invalid edge"%string)
  else
    temp <- call (edgesFrom fromVertex) ;;
    if found (fromVertex, toVertex) temp then
      throw (DigraphException "Invalid edge"%string)
    else
      match StdMap.find fromVertex info with
      | None => throw out_of_range
      | Some _ =>
          put (StdMap.update fromVertex
                 (fun dv =>
                    DigraphVertex.Build (DigraphVertex.vinfo dv)
                      (DigraphVertex.edges dv
                         ++ [DigraphEdge.Build fromVertex toVertex einfo]))
                 info)
      end.

(** The loop
    [while (it != l.end()) { if (it->toVertex == v) l.erase(it); it++; }]
    over one edge list. Erasing invalidates [it], and the loop then
    increments it: from the first matching edge on, nothing is defined
    ([None]). A list without a matching edge is walked to its end and
    left as it is. *)
Fixpoint eraseWhileIterating (v : Z) (l : list Edge) : option (list Edge) :=
  match l with
  | [] => Some []
  | it :: l' =>
      if DigraphEdge.toVertex it =? v then None
      else option_map (cons it) (eraseWhileIterating v l')
  end.

(** The outer loop of [removeVertex] over all remaining vertices. *)
Fixpoint removeIncoming (vertex : Z) (m : t) : option t :=
  match m with
  | [] => Some []
  | (k, dv) :: m' =>
      match eraseWhileIterating vertex (DigraphVertex.edges dv) with
      | None => None
      | Some l =>
          option_map (cons (k, DigraphVertex.Build (DigraphVertex.vinfo dv) l))
                     (removeIncoming vertex m')
      end
  end.

Definition removeVertex (vertex : Z) : M unit :=
  info <- get ;;
  if StdMap.count vertex info =? 0 then
    throw (DigraphException "Invalid vertex"%string)
  else
    put (StdMap.erase vertex info) ;;;
    info <- get ;;
    match removeIncoming vertex info with
    | None => undefined
    | Some info' => put (StdMap.erase vertex info')
    end.

Definition removeEdge (fromVertex toVertex : Z) : M unit :=
  info <- get ;;
  if (StdMap.count fromVertex info =? 0)
     || (StdMap.count toVertex info =? 0) then
    throw (DigraphException "Invalid edge"%string)
  else
    temp <- call (edgesFrom fromVertex) ;;
    if negb (found (fromVertex, toVertex) temp) then
      throw (DigraphException "Invalid edge"%string)
    else
      match StdMap.find fromVertex info with
      | None => throw out_of_range
      | Some dv =>
          match eraseWhileIterating toVertex (DigraphVertex.edges dv) with
          | None => undefined
          | Some l =>
              put (StdMap.update fromVertex
                     (fun dv => DigraphVertex.Build (DigraphVertex.vinfo dv) l)
                     info)
          end
      end.

(** *** Strong connectivity *)

(** The loop of [checkConnectivity] over the outgoing edges [l] of
    [from]. [visited] is the function's own copy of the vector (it is
    passed by value), [size] is [vertice.size()] and [recurse] is the
    recursive call, whose returned value the loop drops. *)
Fixpoint walkEdges (recurse : Z -> list Z -> result bool) (size : nat)
         (l : list Edge) (visited : list Z) : result bool :=
  match l with
  | [] => Ok false
  | it :: l' =>
      if negb (visitedb (DigraphEdge.toVertex it) visited) then
        walkEdges recurse size l' (visited ++ [DigraphEdge.toVertex it])
      else if Z.of_nat (length visited) <? size_t_pred size then
        match recurse (DigraphEdge.toVertex it) visited with
        | Ok _ => walkEdges recurse size l' visited
        | Throw e => Throw e
        | Undefined => Undefined
        | OutOfFuel => OutOfFuel
        end
      else Ok true
  end.

(** [checkConnectivity(from, visited)]. The fuel bounds the depth of the
    recursion. *)
Fixpoint checkConnectivity (fuel : nat) (g : t) (from : Z)
         (visited : list Z) : result bool :=
  match fuel with
  | O => OutOfFuel
  | S fuel' =>
      let vertice := vertices g in
      match StdMap.find from g with
      | None => Throw out_of_range
      | Some dv =>
          walkEdges (checkConnectivity fuel' g) (length vertice)
                    (DigraphVertex.edges dv) visited
      end
  end.

Fixpoint stronglyConnectedFrom (fuel : nat) (g : t) (iters : t)
  : result bool :=
  match iters with
  | [] => Ok true
  | iter :: iters' =>
      match checkConnectivity fuel g (fst iter) [] with
      | Ok b =>
          if negb b then Ok false else stronglyConnectedFrom fuel g iters'
      | Throw e => Throw e
      | Undefined => Undefined
      | OutOfFuel => OutOfFuel
      end
  end.

Definition isStronglyConnected (fuel : nat) (g : t) : result bool :=
  stronglyConnectedFrom fuel g g.

(** *** Shortest paths *)

(** The loop of [findMinimum], with the current [minVal] and [minVert]. *)
Fixpoint findMinimumFrom (vertices : list Z) (shortestDist : StdMap.t float)
         (minVal : float) (minVert : Z) : result Z :=
  match vertices with
  | [] => Ok minVert
  | v :: vertices' =>
      match StdMap.find v shortestDist with
      | None => Throw out_of_range
      | Some d =>
          if PrimFloat.ltb d minVal then
            findMinimumFrom vertices' shortestDist d v
          else
            findMinimumFrom vertices' shortestDist minVal minVert
      end
  end.

(** [findMinimum]. The local [minVert] is declared without an
    initialiser; [minVert0] is the value it starts with, which is what
    is returned when no distance is below 8000000000000. *)
Definition findMinimum (minVert0 : Z) (vertices : list Z)
           (shortestDist : StdMap.t float) : result Z :=
  findMinimumFrom vertices shortestDist 8000000000000%float minVert0.

(** [unvisited.erase(unvisited.begin() + i); break;] at the first [i]
    with [unvisited[i] == current]. *)
Fixpoint eraseFirst (current : Z) (unvisited : list Z) : list Z :=
  match unvisited with
  | [] => []
  | v :: unvisited' =>
      if v =? current then unvisited' else v :: eraseFirst current unvisited'
  end.

(** The relaxation loop over the outgoing edges of [current]. *)
Fixpoint relax (edgeWeightFunc : EdgeInfo -> float) (current : Z)
         (l : list Edge)
         (shortestDist : StdMap.t float) (shortestPath : StdMap.t Z)
  : StdMap.t float * StdMap.t Z :=
  match l with
  | [] => (shortestDist, shortestPath)
  | it :: l' =>
      let (dcur, sd1) := StdMap.index 0%float current shortestDist in
      let distance :=
        PrimFloat.add dcur (edgeWeightFunc (DigraphEdge.einfo it)) in
      let (dto, sd2) := StdMap.index 0%float (DigraphEdge.toVertex it) sd1 in
      if PrimFloat.ltb distance dto then
        relax edgeWeightFunc current l'
              (StdMap.assign (DigraphEdge.toVertex it) distance sd2)
              (StdMap.assign (DigraphEdge.toVertex it) current shortestPath)
      else
        relax edgeWeightFunc current l' sd2 shortestPath
  end.

(** The [while (!unvisited.empty())] loop. [minVerts i] is the value the
    uninitialised [minVert] holds in the call of [findMinimum] made by
    iteration [i]; the fuel bounds the number of iterations. *)
Fixpoint settle (fuel : nat) (minVerts : nat -> Z) (i : nat)
         (edgeWeightFunc : EdgeInfo -> float) (g : t)
         (unvisited : list Z)
         (shortestDist : StdMap.t float) (shortestPath : StdMap.t Z)
  : result (StdMap.t Z) :=
  match unvisited with
  | [] => Ok shortestPath
  | _ :: _ =>
      match fuel with
      | O => OutOfFuel
      | S fuel' =>
          match findMinimum (minVerts i) unvisited shortestDist with
          | Ok current =>
              let unvisited' := eraseFirst current unvisited in
              match StdMap.find current g with
              | None => Throw out_of_range
              | Some dv =>
                  let (sd, sp) :=
                    relax edgeWeightFunc current (DigraphVertex.edges dv)
                          shortestDist shortestPath in
                  settle fuel' minVerts (S i) edgeWeightFunc g
                         unvisited' sd sp
              end
          | Throw e => Throw e
          | Undefined => Undefined
          | OutOfFuel => OutOfFuel
          end
      end
  end.

Definition findShortestPaths (fuel : nat) (minVerts : nat -> Z)
           (startVertex : Z) (edgeWeightFunc : EdgeInfo -> float) (g : t)
  : result (StdMap.t Z) :=
  let unvisited := vertices g in
  let shortestDist :=
    fold_left (fun sd (iter : Z * Vertex) =>
                 StdMap.assign (fst iter) 80000000000000%float sd)
              g StdMap.empty in
  let shortestDist := StdMap.assign startVertex 0%float shortestDist in
  let shortestPath := StdMap.assign startVertex startVertex StdMap.empty in
  settle fuel minVerts 0 edgeWeightFunc g unvisited shortestDist shortestPath.

(** *** The calls a client can make that change the graph *)

Inductive mutation : Type :=
| AddVertex (vertex : Z) (vinfo : VertexInfo)
| AddEdge (fromVertex toVertex : Z) (einfo : EdgeInfo)
| RemoveVertex (vertex : Z)
| RemoveEdge (fromVertex toVertex : Z).

Definition perform (c : mutation) : M unit :=
  match c with
  | AddVertex v vi => addVertex v vi
  | AddEdge a b ei => addEdge a b ei
  | RemoveVertex v => removeVertex v
  | RemoveEdge a b => removeEdge a b
  end.

(** A sequence of calls, stopping at the first that does not return. *)
Fixpoint performAll (cs : list mutation) : M unit :=
  match cs with
  | [] => ret tt
  | c :: cs' => perform c ;;; performAll cs'
  end.

(** *** What a caller can observe of the graph *)

(** The edge ([from], [to]) is present: [edges(from)] returns it. *)
Definition hasEdge (fromVertex toVertex : Z) (g : t) : Prop :=
  exists temp,
    edgesFrom fromVertex g = Ok temp /\ In (fromVertex, toVertex) temp.

(** The calls the documentation of the class rejects: adding a vertex
    number that is present, adding an edge with a missing endpoint or
    that is present, removing a vertex or an edge that is missing. *)
Definition rejected (c : mutation) (g : t) : Prop :=
  match c with
  | AddVertex v _ => In v (vertices g)
  | AddEdge a b _ =>
      ~ In a (vertices g) \/ ~ In b (vertices g) \/ hasEdge a b g
  | RemoveVertex v => ~ In v (vertices g)
  | RemoveEdge a b =>
      ~ In a (vertices g) \/ ~ In b (vertices g) \/ ~ hasEdge a b g
  end.

(** *** The representation invariant *)

(** Keys in strictly ascending order, as [std::map] keeps them. *)
Fixpoint ascending (l : list Z) : Prop :=
  match l with
  | [] => True
  | k :: l' => (forall k', In k' l' -> k < k') /\ ascending l'
  end.

(** What the public calls maintain: distinct ascending vertex numbers;
    every edge is stored with the vertex it leaves; no vertex has two edges
    to the same target. *)
Definition wellFormed (g : t) : Prop :=
  ascending (vertices g)
  /\ forall k dv,
       In (k, dv) g ->
       (forall it, In it (DigraphVertex.edges dv) ->
                   DigraphEdge.fromVertex it = k)
       /\ NoDup (map DigraphEdge.toVertex (DigraphVertex.edges dv)).

(** What [addEdge] does to the entry of the source vertex:
    [edges.push_back(it)]. *)
Definition pushed (it : Edge) (dv : Vertex) : Vertex :=
  DigraphVertex.Build (DigraphVertex.vinfo dv) (DigraphVertex.edges dv ++ [it]).

(** Every edge points to a vertex of the graph. *)
Definition endpointsPresent (g : t) : Prop :=
  forall k dv it,
    In (k, dv) g -> In it (DigraphVertex.edges dv) ->
    In (DigraphEdge.toVertex it) (vertices g).

(** The graph is what some sequence of public calls, all returning
    normally, makes of the empty graph. *)
Definition built (g : t) : Prop :=
  exists cs, performAll cs empty = Done unit tt g.

(** *** Copying and moving *)

(** The special member functions act on two objects, [*this] and [d];
    each is given here by the pair ([info] of [*this], [info] of [d]) it
    leaves. A constructor starts from an empty [this->info]. *)

(** [Digraph(const Digraph& d)] and [operator=(const Digraph& d)]:
    [this->info = d.info]. *)
Definition copyFrom (d : t) : t * t := (d, d).

(** [operator=(Digraph&& d)]: [this->info.swap(d.info)]. *)
Definition moveAssign (this d : t) : t * t := (d, this).

(** [Digraph(Digraph&& d)]: the same swap, into a new object. *)
Definition moveConstruct (d : t) : t * t := moveAssign empty d.

End Class.

Arguments t : clear implicits.
Arguments outcome : clear implicits.
Arguments M : clear implicits.
Arguments mutation : clear implicits.
Arguments Done {VertexInfo EdgeInfo A} a g.
Arguments Raised {VertexInfo EdgeInfo A} e g.
Arguments UB {VertexInfo EdgeInfo A}.

End Digraph.

(** ** The graphs the properties below are stated on *)

Module Graphs.

Import Digraph.

(** One vertex, no edge. *)
Definition single {VertexInfo EdgeInfo : Type} (v : Z) (vi : VertexInfo)
  : Digraph.t VertexInfo EdgeInfo :=
  [(v, DigraphVertex.Build vi [])].

(** The edge leaving vertex [i] on the cycle 1 -> 2 -> ... -> N -> 1. *)
Definition cycleEdge (N i : Z) : DigraphEdge.t unit :=
  DigraphEdge.Build i (if i =? N then 1 else i + 1) tt.

(** The cycle of [N] vertices, as the calls below leave it in [info]. *)
Definition cycle (N : nat) : Digraph.t unit unit :=
  map (fun i : nat =>
         (Z.of_nat i,
          DigraphVertex.Build tt [cycleEdge (Z.of_nat N) (Z.of_nat i)]))
      (seq 1 N).

(** The same cycle without the edge that leaves vertex [cut]. *)
Definition cutCycle (N : nat) (cut : Z) : Digraph.t unit unit :=
  map (fun i : nat =>
         (Z.of_nat i,
          DigraphVertex.Build tt
            (if Z.of_nat i =? cut then []
             else [cycleEdge (Z.of_nat N) (Z.of_nat i)])))
      (seq 1 N).

(** The calls that build the cycle: the [N] vertices, then the [N] edges
    except the one leaving [cut] (pass 0 to keep them all). *)
Definition cycleCalls (N : nat) (cut : Z) : list (mutation unit unit) :=
  map (fun i : nat => AddVertex (Z.of_nat i) tt) (seq 1 N)
  ++ flat_map
       (fun i : nat =>
          if Z.of_nat i =? cut then []
          else [AddEdge (Z.of_nat i)
                        (DigraphEdge.toVertex
                           (cycleEdge (Z.of_nat N) (Z.of_nat i)))
                        tt])
       (seq 1 N).

(** Vertices 1 and 2, no edge. *)
Definition twoIsolated : Digraph.t unit unit :=
  [(1, DigraphVertex.Build tt []); (2, DigraphVertex.Build tt [])].

(** [shortestDist] and [shortestPath] of [findShortestPaths(1, _)] on
    [twoIsolated] once vertex 1 has been settled. *)
Definition twoIsolatedDist : StdMap.t float :=
  [(1, 0%float); (2, 80000000000000%float)].
Definition twoIsolatedPred : StdMap.t Z := [(1, 1)].

(** Vertices 1 and 2 and the edge 1 -> 2. *)
Definition oneEdge : Digraph.t unit unit :=
  [(1, DigraphVertex.Build tt [DigraphEdge.Build 1 2 tt]);
   (2, DigraphVertex.Build tt [])].

(** Vertices 1, 2, 3 and the edges 1 -> 2, 2 -> 3, 1 -> 3 carrying the
    payloads [e12], [e23], [e13]. Vertex 1 lists its two edges in the
    order they were added: 1 -> 2 first when [directLast], 1 -> 3 first
    otherwise. *)
Definition triangle {EdgeInfo : Type} (directLast : bool)
           (e12 e23 e13 : EdgeInfo) : Digraph.t unit EdgeInfo :=
  [(1, DigraphVertex.Build tt
         (if directLast
          then [DigraphEdge.Build 1 2 e12; DigraphEdge.Build 1 3 e13]
          else [DigraphEdge.Build 1 3 e13; DigraphEdge.Build 1 2 e12]));
   (2, DigraphVertex.Build tt [DigraphEdge.Build 2 3 e23]);
   (3, DigraphVertex.Build tt [])].

Definition triangleCalls {EdgeInfo : Type} (directLast : bool)
           (e12 e23 e13 : EdgeInfo) : list (mutation unit EdgeInfo) :=
  [AddVertex 1 tt; AddVertex 2 tt; AddVertex 3 tt]
  ++ (if directLast
      then [AddEdge 1 2 e12; AddEdge 2 3 e23; AddEdge 1 3 e13]
      else [AddEdge 1 3 e13; AddEdge 2 3 e23; AddEdge 1 2 e12]).

End Graphs.

(** * Properties *)

(** ** The example graphs are what the public calls build *)

Example cycle_2_built :
  Digraph.performAll (Graphs.cycleCalls 2 0) Digraph.empty
  = Digraph.Done tt (Graphs.cycle 2).
Proof. reflexivity. Qed.

Example cycle_3_built :
  Digraph.performAll (Graphs.cycleCalls 3 0) Digraph.empty
  = Digraph.Done tt (Graphs.cycle 3).
Proof. reflexivity. Qed.

Example cutCycle_4_built :
  Digraph.performAll (Graphs.cycleCalls 4 2) Digraph.empty
  = Digraph.Done tt (Graphs.cutCycle 4 2).
Proof. reflexivity. Qed.

Example single_built :
  Digraph.addVertex 5 tt (@Digraph.empty unit unit)
  = Digraph.Done tt (Graphs.single 5 tt).
Proof. reflexivity. Qed.

Example twoIsolated_built :
  Digraph.performAll [Digraph.AddVertex 2 tt; Digraph.AddVertex 1 tt]
                     Digraph.empty
  = Digraph.Done tt Graphs.twoIsolated.
Proof. reflexivity. Qed.

Example oneEdge_built :
  Digraph.performAll
    [Digraph.AddVertex 1 tt; Digraph.AddVertex 2 tt; Digraph.AddEdge 1 2 tt]
    Digraph.empty
  = Digraph.Done tt Graphs.oneEdge.
Proof. reflexivity. Qed.

Example triangle_built (b : bool) :
  Digraph.performAll (Graphs.triangleCalls b 1%float 1%float 5%float)
                     Digraph.empty
  = Digraph.Done tt (Graphs.triangle b 1%float 1%float 5%float).
Proof. destruct b; reflexivity. Qed.

(** ** [std::map] lookups *)

Section StdMapFacts.
Context {V : Type}.
Implicit Types (m : StdMap.t V) (k : Z).

Lemma find_head k (v : V) m : StdMap.find k ((k, v) :: m) = Some v.
Proof. simpl. now rewrite Z.eqb_refl. Qed.

Lemma find_None_keys k m :
  StdMap.find k m = None <-> ~ In k (StdMap.keys m).
Proof.
  induction m as [|[k' v'] m IH]; simpl.
  - tauto.
  - destruct (Z.eqb_spec k k') as [->|Hne].
    + split; [discriminate | intros H; exfalso; apply H; now left].
    + rewrite IH. split.
      * intros H [Heq|Hin]; [congruence | tauto].
      * tauto.
Qed.

Lemma find_Some_keys k m :
  StdMap.find k m <> None <-> In k (StdMap.keys m).
Proof.
  rewrite find_None_keys. split; [|tauto].
  intros H. destruct (in_dec Z.eq_dec k (StdMap.keys m)); tauto.
Qed.

Lemma count_0_keys k m :
  (StdMap.count k m =? 0) = true <-> ~ In k (StdMap.keys m).
Proof.
  rewrite <- find_None_keys. unfold StdMap.count.
  destruct (StdMap.find k m); simpl; split; congruence.
Qed.

Lemma count_present k m (v : V) :
  StdMap.find k m = Some v -> (StdMap.count k m =? 0) = false.
Proof. unfold StdMap.count. now intros ->. Qed.

Lemma count_absent k m :
  StdMap.find k m = None -> (StdMap.count k m =? 0) = true.
Proof. unfold StdMap.count. now intros ->. Qed.

Lemma find_update k (f : V -> V) m :
  StdMap.find k (StdMap.update k f m) = option_map f (StdMap.find k m).
Proof.
  induction m as [|[k' v'] m IH]; simpl; [reflexivity|].
  destruct (Z.eqb_spec k k') as [->|Hne]; simpl.
  - now rewrite Z.eqb_refl.
  - destruct (Z.eqb_spec k k'); [contradiction | exact IH].
Qed.

Lemma find_update_other k k' (f : V -> V) m :
  k' <> k -> StdMap.find k' (StdMap.update k f m) = StdMap.find k' m.
Proof.
  intros Hne. induction m as [|[k0 v0] m IH]; simpl; [reflexivity|].
  destruct (Z.eqb_spec k k0) as [->|Hk]; simpl.
  - destruct (Z.eqb_spec k' k0); [contradiction | reflexivity].
  - now rewrite IH.
Qed.

Lemma update_In k (f : V -> V) m (v : V) :
  StdMap.find k m = Some v -> In (k, f v) (StdMap.update k f m).
Proof.
  induction m as [|[k' v'] m IH]; simpl; [discriminate|].
  destruct (Z.eqb_spec k k') as [->|Hne].
  - intros [= ->]. now left.
  - intros H. right. now apply IH.
Qed.
End StdMapFacts.

(** ** Strong connectivity *)

Section Connectivity.
Context {VertexInfo EdgeInfo : Type}.
Implicit Types (g : Digraph.t VertexInfo EdgeInfo)
               (l : list (DigraphEdge.t EdgeInfo)).

Lemma visitedb_false_iff (v : Z) (visited : list Z) :
  visitedb v visited = false <-> ~ In v visited.
Proof.
  unfold visitedb. induction visited as [|w visited IH]; simpl.
  - tauto.
  - rewrite orb_false_iff, IH, Z.eqb_neq. intuition congruence.
Qed.

(** Called on an edge list whose targets are pairwise distinct and all
    unvisited, the loop only ever takes its first branch: every target is
    appended to [visited] and the function falls through to
    [return false]. *)
Lemma walkEdges_all_new recurse size l : forall visited,
  NoDup (map DigraphEdge.toVertex l) ->
  (forall it, In it l -> ~ In (DigraphEdge.toVertex it) visited) ->
  Digraph.walkEdges recurse size l visited = Ok false.
Proof.
  induction l as [|it l IH]; intros visited Hnd Hnew; simpl.
  - reflexivity.
  - inversion Hnd as [|? ? Hnotin Hnd']; subst.
    assert (Hit : visitedb (DigraphEdge.toVertex it) visited = false).
    { apply visitedb_false_iff. apply Hnew. now left. }
    rewrite Hit. simpl. apply IH; [assumption|].
    intros it' Hin' Hvis. apply in_app_or in Hvis as [Hvis|[Heq|[]]].
    + eapply Hnew; [right; eassumption | assumption].
    + apply Hnotin. rewrite Heq. now apply in_map.
Qed.

Lemma checkConnectivity_top fuel g from dv :
  StdMap.find from g = Some dv ->
  NoDup (map DigraphEdge.toVertex (DigraphVertex.edges dv)) ->
  Digraph.checkConnectivity (S fuel) g from [] = Ok false.
Proof.
  intros Hfind Hnd. simpl. rewrite Hfind.
  apply walkEdges_all_new; [assumption | intros ? _ []].
Qed.

(** On a graph with at least one vertex, whose first vertex has no two
    edges to the same target, the very first traversal reports failure. *)
Lemma isStronglyConnected_nonempty fuel k dv g :
  NoDup (map DigraphEdge.toVertex (DigraphVertex.edges dv)) ->
  Digraph.isStronglyConnected (S fuel) ((k, dv) :: g) = Ok false.
Proof.
  intros Hnd. unfold Digraph.isStronglyConnected.
  cbn [Digraph.stronglyConnectedFrom fst].
  rewrite (checkConnectivity_top fuel ((k, dv) :: g) k dv);
    [reflexivity | apply find_head | assumption].
Qed.
End Connectivity.

(** C2. On the directed cycle 1 -> 2 -> ... -> N -> 1, for every N >= 1 (so
    for every N >= 2), [isStronglyConnected] returns false, where the
    function's contract says true; with the edge leaving any one vertex
    removed it returns false as well. *)
Theorem isStronglyConnected_cycle_false (n fuel : nat) :
  Digraph.isStronglyConnected (S fuel) (Graphs.cycle (S n)) = Ok false
  /\ forall cut : Z,
       Digraph.isStronglyConnected (S fuel) (Graphs.cutCycle (S n) cut)
       = Ok false.
Proof.
  split; [|intros cut]; unfold Graphs.cycle, Graphs.cutCycle;
    cbn [seq map]; apply isStronglyConnected_nonempty.
  - cbn. repeat constructor. intros [].
  - destruct (Z.of_nat 1 =? cut); cbn; repeat constructor. intros [].
Qed.

(** C3. [isStronglyConnected] returns true on the empty graph, but false
    on every graph that consists of one vertex and no edge. *)
Theorem isStronglyConnected_empty_and_single
        {VertexInfo EdgeInfo : Type} (fuel : nat) (v : Z) (vi : VertexInfo) :
  Digraph.isStronglyConnected fuel (@Digraph.empty VertexInfo EdgeInfo)
  = Ok true
  /\ Digraph.isStronglyConnected (S fuel)
       (Graphs.single (EdgeInfo := EdgeInfo) v vi)
     = Ok false.
Proof.
  split.
  - reflexivity.
  - apply isStronglyConnected_nonempty. constructor.
Qed.

(** ** Shortest paths *)

(** C4. On the graph with vertices 1, 2, 3 and edges 1 -> 2, 2 -> 3, 1 -> 3
    of weights 1, 1 and 5, [findShortestPaths(1, weightFn)] returns the
    predecessor map {1:1, 2:1, 3:2}: three iterations of the loop suffice,
    whatever the edge payloads are, in whichever order vertex 1 lists its
    two edges and whatever the uninitialised local of [findMinimum] holds. *)
Theorem findShortestPaths_triangle
        {EdgeInfo : Type} (directLast : bool) (e12 e23 e13 : EdgeInfo)
        (weightFn : EdgeInfo -> float) (minVerts : nat -> Z) (fuel : nat) :
  weightFn e12 = 1%float ->
  weightFn e23 = 1%float ->
  weightFn e13 = 5%float ->
  Digraph.findShortestPaths (3 + fuel) minVerts 1 weightFn
    (Graphs.triangle directLast e12 e23 e13)
  = Ok [(1, 1); (2, 1); (3, 2)].
Proof.
  intros H12 H23 H13.
  unfold Digraph.findShortestPaths.
  destruct directLast; cbn; rewrite ?H12, ?H13; cbn; rewrite ?H12, ?H13; cbn;
    rewrite ?H23; cbn; destruct fuel; reflexivity.
Qed.

Lemma findShortestPaths_triangle_witness :
  Digraph.findShortestPaths 3 (fun _ => 0) 1 (fun w : float => w)
    (Graphs.triangle true 1%float 1%float 5%float)
  = Ok [(1, 1); (2, 1); (3, 2)].
Proof.
  apply (findShortestPaths_triangle true 1%float 1%float 5%float
           (fun w => w) (fun _ => 0) 0); reflexivity.
Defined.

Section TwoIsolated.
Context (weightFn : unit -> float).

Local Abbreviation dist := Graphs.twoIsolatedDist.
Local Abbreviation pred := Graphs.twoIsolatedPred.

(** The loop after vertex 1 has been settled: vertex 2 is the only
    unvisited one, at distance 80000000000000. *)
Lemma findShortestPaths_twoIsolated_start fuel minVerts :
  Digraph.findShortestPaths (S fuel) minVerts 1 weightFn Graphs.twoIsolated
  = Digraph.settle fuel minVerts 1 weightFn Graphs.twoIsolated [2] dist pred.
Proof. reflexivity. Qed.

(** No distance left is below 8000000000000, so [findMinimum] hands back
    its uninitialised local. *)
Lemma findMinimum_unreached minVert0 :
  Digraph.findMinimum minVert0 [2] dist = Ok minVert0.
Proof. reflexivity. Qed.

Lemma settle_unreached_step fuel minVerts i :
  Digraph.settle (S fuel) minVerts i weightFn Graphs.twoIsolated [2] dist pred
  = if minVerts i =? 2 then Ok pred
    else if minVerts i =? 1 then
      Digraph.settle fuel minVerts (S i) weightFn Graphs.twoIsolated
                     [2] dist pred
    else Throw out_of_range.
Proof.
  cbn [Digraph.settle]. rewrite findMinimum_unreached.
  cbn [Digraph.eraseFirst]. rewrite (Z.eqb_sym 2).
  unfold Graphs.twoIsolated. cbn [StdMap.find].
  destruct (Z.eqb_spec (minVerts i) 2) as [E2|H2].
  - rewrite E2. destruct fuel; reflexivity.
  - destruct (Z.eqb_spec (minVerts i) 1) as [E1|H1]; reflexivity.
Qed.

Lemma settle_unreached_outcomes fuel : forall minVerts i,
  match Digraph.settle fuel minVerts i weightFn Graphs.twoIsolated
          [2] dist pred with
  | Ok shortestPath => shortestPath = [(1, 1)]
  | Throw e => e = out_of_range
  | Undefined => False
  | OutOfFuel => True
  end.
Proof.
  induction fuel as [|fuel IH]; intros minVerts i.
  - exact I.
  - rewrite settle_unreached_step.
    destruct (minVerts i =? 2); [reflexivity|].
    destruct (minVerts i =? 1); [apply IH | reflexivity].
Qed.

Lemma settle_unreached_stale fuel : forall i,
  Digraph.settle fuel (fun _ => 1) i weightFn Graphs.twoIsolated
                 [2] dist pred
  = OutOfFuel.
Proof.
  induction fuel as [|fuel IH]; intros i.
  - reflexivity.
  - rewrite settle_unreached_step. cbn. apply IH.
Qed.
End TwoIsolated.

(** C1. On the graph with vertices 1 and 2 and no edge, whatever
    [findShortestPaths(1, weightFn)] returns is the map {1:1}: vertex 2,
    which is unreachable from 1, is not a key of it. The call can return:
    it does when the uninitialised local of [findMinimum] holds 2; in every
    other case it throws [std::out_of_range] or never leaves its loop. *)
Theorem findShortestPaths_unreached_not_a_key
        (weightFn : unit -> float) (minVerts : nat -> Z) (fuel : nat) :
  match Digraph.findShortestPaths fuel minVerts 1 weightFn
          Graphs.twoIsolated with
  | Ok shortestPath =>
      shortestPath = [(1, 1)] /\ StdMap.find 2 shortestPath = None
  | Throw e => e = out_of_range
  | Undefined => False
  | OutOfFuel => True
  end
  /\ Digraph.findShortestPaths 2 (fun _ => 2) 1 weightFn Graphs.twoIsolated
     = Ok [(1, 1)].
Proof.
  split; [|reflexivity].
  destruct fuel as [|fuel]; [exact I|].
  rewrite findShortestPaths_twoIsolated_start.
  pose proof (settle_unreached_outcomes weightFn fuel minVerts 1) as H.
  destruct (Digraph.settle _ _ _ _ _ _ _ _); try assumption.
  subst. split; reflexivity.
Qed.

(** C8. On the graph with vertices 1 and 2 and no edge, what
    [findShortestPaths(1, weightFn)] does is not determined by the graph,
    the start vertex and the weight function: it follows the value that
    the uninitialised local of [findMinimum] holds once only the
    unreachable vertex 2 is left. With 1 there (the vertex just settled)
    no number of iterations empties the frontier; with 2 the call returns
    {1:1}; with 3 it throws [std::out_of_range]. *)
Theorem findShortestPaths_follows_uninitialised (weightFn : unit -> float) :
  (forall fuel,
     Digraph.findShortestPaths fuel (fun _ => 1) 1 weightFn Graphs.twoIsolated
     = OutOfFuel)
  /\ Digraph.findShortestPaths 2 (fun _ => 2) 1 weightFn Graphs.twoIsolated
     = Ok [(1, 1)]
  /\ Digraph.findShortestPaths 2 (fun _ => 3) 1 weightFn Graphs.twoIsolated
     = Throw out_of_range.
Proof.
  split; [|split; reflexivity].
  intros [|fuel]; [reflexivity|].
  rewrite findShortestPaths_twoIsolated_start.
  apply settle_unreached_stale.
Qed.

(** ** Counting edges *)

Lemma to_int_add_l (a b : Z) : to_int (to_int a + b) = to_int (a + b).
Proof.
  unfold to_int. f_equal.
  replace ((a + 2 ^ 31) mod 2 ^ 32 - 2 ^ 31 + b + 2 ^ 31)
    with ((a + 2 ^ 31) mod 2 ^ 32 + b) by ring.
  rewrite Z.add_mod_idemp_l by (cbv; discriminate).
  f_equal. ring.
Qed.

Section Counting.
Context {VertexInfo EdgeInfo : Type}.
Implicit Types g : Digraph.t VertexInfo EdgeInfo.

Lemma edges_cons k (dv : DigraphVertex.t VertexInfo EdgeInfo) g :
  length (Digraph.edges ((k, dv) :: g))
  = (length (DigraphVertex.edges dv) + length (Digraph.edges g))%nat.
Proof.
  unfold Digraph.edges. cbn [flat_map snd].
  now rewrite length_app, length_map.
Qed.

Lemma edgeCount_accumulates g : forall total,
  Digraph.edgeCount (to_int total) g
  = to_int (total + Z.of_nat (length (Digraph.edges g))).
Proof.
  induction g as [|[k dv] g IH]; intros total.
  - cbn. now rewrite Z.add_0_r.
  - rewrite edges_cons. unfold Digraph.edgeCount in *. cbn [fold_left snd].
    rewrite to_int_add_l, IH. f_equal. lia.
Qed.
End Counting.

(** C7. [edgeCount()] adds the out-degrees of all vertices to whatever its
    uninitialised local [total] holds: the value returned is the number of
    edges (the length of [edges()]) plus that initial [int], wrapped to an
    [int]. On the empty graph it is the initial value itself, 7 for
    instance, not 0. *)
Theorem edgeCount_adds_to_uninitialised
        {VertexInfo EdgeInfo : Type} (g : Digraph.t VertexInfo EdgeInfo)
        (total0 : Z) :
  Digraph.edgeCount (to_int total0) g
  = to_int (total0 + Z.of_nat (length (Digraph.edges g)))
  /\ Digraph.edgeCount 7 (@Digraph.empty VertexInfo EdgeInfo) = 7.
Proof. split; [apply edgeCount_accumulates | reflexivity]. Qed.

(** ** What the queries see *)

Section Queries.
Context {VertexInfo EdgeInfo : Type}.
Implicit Types (g : Digraph.t VertexInfo EdgeInfo)
               (dv : DigraphVertex.t VertexInfo EdgeInfo)
               (it : DigraphEdge.t EdgeInfo).

Lemma pair_eqb_eq (p q : Z * Z) : pair_eqb p q = true <-> p = q.
Proof.
  destruct p as [a b], q as [c d]. unfold pair_eqb. cbn [fst snd].
  rewrite andb_true_iff, !Z.eqb_eq. split; [intros [-> ->] | intros [= -> ->]]; auto.
Qed.

Lemma found_In (check : Z * Z) temp : found check temp = true <-> In check temp.
Proof.
  unfold found. rewrite existsb_exists. split.
  - intros [q [Hin Heq]]. apply pair_eqb_eq in Heq. now subst.
  - intros Hin. exists check. split; [assumption | now apply pair_eqb_eq].
Qed.

Lemma found_not_In (check : Z * Z) temp :
  found check temp = false <-> ~ In check temp.
Proof.
  rewrite <- found_In. destruct (found check temp); split; congruence.
Qed.

Lemma edgesFrom_present v g dv :
  StdMap.find v g = Some dv ->
  Digraph.edgesFrom v g
  = Ok (map (fun it => (v, DigraphEdge.toVertex it)) (DigraphVertex.edges dv)).
Proof.
  intros H. unfold Digraph.edgesFrom.
  now rewrite (count_present _ _ _ H), H.
Qed.

Lemma edgesFrom_absent v g :
  StdMap.find v g = None ->
  Digraph.edgesFrom v g = Throw (DigraphException "Invalid vertex"%string).
Proof.
  intros H. unfold Digraph.edgesFrom. now rewrite (count_absent _ _ H).
Qed.

Lemma in_targets (v b : Z) (l : list (DigraphEdge.t EdgeInfo)) :
  In (v, b) (map (fun it => (v, DigraphEdge.toVertex it)) l)
  <-> exists it, In it l /\ DigraphEdge.toVertex it = b.
Proof.
  rewrite in_map_iff. split; intros [it [H1 H2]]; exists it.
  - injection H1 as <-. auto.
  - subst. auto.
Qed.

(** [hasEdge] read on the representation. *)
Lemma hasEdge_stored a b g :
  Digraph.hasEdge a b g
  <-> exists dv it, StdMap.find a g = Some dv
                    /\ In it (DigraphVertex.edges dv)
                    /\ DigraphEdge.toVertex it = b.
Proof.
  unfold Digraph.hasEdge. split.
  - intros [temp [Hq Hin]]. destruct (StdMap.find a g) as [dv|] eqn:Hf.
    + rewrite (edgesFrom_present _ _ _ Hf) in Hq. injection Hq as <-.
      apply in_targets in Hin as [it [Hit Hb]]. now exists dv, it.
    + rewrite (edgesFrom_absent _ _ Hf) in Hq. discriminate.
  - intros [dv [it [Hf [Hit Hb]]]]. eexists. split.
    + exact (edgesFrom_present _ _ _ Hf).
    + apply in_targets. now exists it.
Qed.

Lemma find_first_target (b : Z) (l : list (DigraphEdge.t EdgeInfo)) it :
  (forall it', In it' l -> DigraphEdge.toVertex it' <> b) ->
  DigraphEdge.toVertex it = b ->
  List.find (fun it' => DigraphEdge.toVertex it' =? b) (l ++ [it]) = Some it.
Proof.
  intros Hl Hit. induction l as [|x l IH]; cbn.
  - apply Z.eqb_eq in Hit. now rewrite Hit.
  - destruct (Z.eqb_spec (DigraphEdge.toVertex x) b) as [E|_].
    + exfalso. apply (Hl x); [now left | assumption].
    + apply IH. intros it' Hin. apply Hl. now right.
Qed.
End Queries.

(** ** Rejected calls *)

Section Rejected.
Context {VertexInfo EdgeInfo : Type}.
Implicit Types (g : Digraph.t VertexInfo EdgeInfo).

Local Ltac present v g H :=
  let dv := fresh "dv" in
  destruct (StdMap.find v g) as [dv|] eqn:H;
  [ pose proof (count_present v g dv H)
  | pose proof (count_absent v g H) ].

Lemma addVertex_rejected g v (vi : VertexInfo) :
  In v (Digraph.vertices g) ->
  Digraph.addVertex v vi g
  = Digraph.Raised (DigraphException "Vertex already exists"%string) g.
Proof.
  intros Hin. apply find_Some_keys in Hin.
  unfold Digraph.addVertex, Digraph.bind, Digraph.get.
  present v g Hv; [|contradiction].
  now rewrite H.
Qed.

Lemma addEdge_rejected g a b (ei : EdgeInfo) :
  ~ In a (Digraph.vertices g) \/ ~ In b (Digraph.vertices g)
  \/ Digraph.hasEdge a b g ->
  Digraph.addEdge a b ei g
  = Digraph.Raised (DigraphException "Invalid edge"%string) g.
Proof.
  intros Hrej.
  unfold Digraph.addEdge, Digraph.bind, Digraph.get.
  present a g Ha; present b g Hb; rewrite ?H, ?H0; cbn [orb];
    try reflexivity.
  unfold Digraph.call. rewrite (edgesFrom_present _ _ _ Ha).
  destruct Hrej as [Hn|[Hn|He]].
  - apply find_None_keys in Hn. congruence.
  - apply find_None_keys in Hn. congruence.
  - apply hasEdge_stored in He as [dv' [it [Hf [Hit Hto]]]].
    assert (dv' = dv) by congruence. subst dv'.
    assert (Hfound : found (a, b)
              (map (fun it => (a, DigraphEdge.toVertex it))
                   (DigraphVertex.edges dv)) = true).
    { apply found_In, in_targets. now exists it. }
    now rewrite Hfound.
Qed.

Lemma removeVertex_rejected g v :
  ~ In v (Digraph.vertices g) ->
  Digraph.removeVertex v g
  = Digraph.Raised (DigraphException "Invalid vertex"%string) g.
Proof.
  intros Hn. apply find_None_keys in Hn.
  unfold Digraph.removeVertex, Digraph.bind, Digraph.get.
  now rewrite (count_absent _ _ Hn).
Qed.

Lemma no_edge_not_found g a b dv :
  StdMap.find a g = Some dv ->
  ~ Digraph.hasEdge a b g ->
  found (a, b)
    (map (fun it => (a, DigraphEdge.toVertex it)) (DigraphVertex.edges dv))
  = false.
Proof.
  intros Ha He. apply found_not_In. intros Hin. apply He.
  exists (map (fun it => (a, DigraphEdge.toVertex it)) (DigraphVertex.edges dv)).
  split; [now apply edgesFrom_present | assumption].
Qed.

Lemma removeEdge_rejected g a b :
  ~ In a (Digraph.vertices g) \/ ~ In b (Digraph.vertices g)
  \/ ~ Digraph.hasEdge a b g ->
  Digraph.removeEdge a b g
  = Digraph.Raised (DigraphException "Invalid edge"%string) g.
Proof.
  intros Hrej.
  unfold Digraph.removeEdge, Digraph.bind, Digraph.get.
  present a g Ha; present b g Hb; rewrite ?H, ?H0; cbn [orb];
    try reflexivity.
  unfold Digraph.call. rewrite (edgesFrom_present _ _ _ Ha).
  destruct Hrej as [Hn|[Hn|He]].
  - apply find_None_keys in Hn. congruence.
  - apply find_None_keys in Hn. congruence.
  - now rewrite (no_edge_not_found _ _ _ _ Ha He).
Qed.

Lemma edgeInfo_rejected g a b :
  ~ In a (Digraph.vertices g) \/ ~ In b (Digraph.vertices g)
  \/ ~ Digraph.hasEdge a b g ->
  Digraph.edgeInfo a b g = Throw (DigraphException "Invalid edge"%string).
Proof.
  intros Hrej. unfold Digraph.edgeInfo.
  present a g Ha; present b g Hb; rewrite ?H, ?H0; cbn [orb];
    try reflexivity.
  rewrite (edgesFrom_present _ _ _ Ha).
  destruct Hrej as [Hn|[Hn|He]].
  - apply find_None_keys in Hn. congruence.
  - apply find_None_keys in Hn. congruence.
  - now rewrite (no_edge_not_found _ _ _ _ Ha He).
Qed.
End Rejected.

(** C6. A mutating call that the class rejects (addVertex on a present
    vertex number, addEdge with a missing endpoint or on a present edge,
    removeVertex or removeEdge on a missing target) throws a
    [DigraphException], and the graph at that point is the graph before the
    call: vertices, edges and payloads are all unchanged. *)
Theorem rejected_call_leaves_graph
        {VertexInfo EdgeInfo : Type} (g : Digraph.t VertexInfo EdgeInfo)
        (c : Digraph.mutation VertexInfo EdgeInfo) :
  Digraph.rejected c g ->
  exists why, Digraph.perform c g = Digraph.Raised (DigraphException why) g.
Proof.
  destruct c as [v vi|a b ei|v|a b]; cbn [Digraph.rejected Digraph.perform];
    intros Hrej; eexists.
  - now apply addVertex_rejected.
  - now apply addEdge_rejected.
  - now apply removeVertex_rejected.
  - now apply removeEdge_rejected.
Qed.

Lemma rejected_call_leaves_graph_witness :
  exists why,
    Digraph.perform (Digraph.AddEdge 1 2 tt) Graphs.oneEdge
    = Digraph.Raised (DigraphException why) Graphs.oneEdge.
Proof.
  apply (rejected_call_leaves_graph Graphs.oneEdge (Digraph.AddEdge 1 2 tt)).
  right. right. exists [(1, 2)]. split; [reflexivity | left; reflexivity].
Defined.

(** ** One exception type, three reasons *)

(** C9, as stated, fails: on the graph with vertices 1, 2 and the edge
    1 -> 2, [addEdge(1, 3, _)] (endpoint 3 is absent) and [addEdge(1, 2, _)]
    (the edge is present) throw the same exception, so the two errors are
    not distinct. *)
Lemma addEdge_errors_not_distinct :
  ~ (forall e1 e2 : exn,
       Digraph.addEdge 1 3 tt Graphs.oneEdge = Digraph.Raised e1 Graphs.oneEdge ->
       Digraph.addEdge 1 2 tt Graphs.oneEdge = Digraph.Raised e2 Graphs.oneEdge ->
       e1 <> e2).
Proof.
  intros H. apply (H _ _ eq_refl eq_refl). reflexivity.
Qed.

(** What each operation throws, when it throws at all. *)
Section Thrown.
Context {VertexInfo EdgeInfo : Type}.
Implicit Types (g : Digraph.t VertexInfo EdgeInfo).

Lemma vertex_queries_throw g v (e : exn) :
  Digraph.vertexInfo v g = Throw e
  \/ Digraph.edgesFrom v g = Throw e
  \/ Digraph.edgeCountOf v g = Throw e ->
  e = DigraphException "Invalid vertex"%string.
Proof.
  unfold Digraph.vertexInfo, Digraph.edgesFrom, Digraph.edgeCountOf,
    StdMap.count.
  destruct (StdMap.find v g) as [dv|]; cbn;
    intros [H|[H|H]]; try discriminate; now injection H as <-.
Qed.

Lemma edgeInfo_throws g a b (e : exn) :
  Digraph.edgeInfo a b g = Throw e ->
  e = DigraphException "Invalid edge"%string.
Proof.
  unfold Digraph.edgeInfo.
  destruct ((StdMap.count a g =? 0) || (StdMap.count b g =? 0)) eqn:Hab;
    [now intros [= <-]|].
  apply orb_false_elim in Hab as [Ha _].
  destruct (StdMap.find a g) as [dv|] eqn:Hf.
  - rewrite (edgesFrom_present _ _ _ Hf).
    destruct (negb (found _ _)); [now intros [= <-]|].
    now destruct (List.find _ (DigraphVertex.edges dv)).
  - rewrite (count_absent _ _ Hf) in Ha. discriminate.
Qed.

Lemma addVertex_raises g v (vi : VertexInfo) (e : exn) g' :
  Digraph.addVertex v vi g = Digraph.Raised e g' ->
  e = DigraphException "Vertex already exists"%string.
Proof.
  unfold Digraph.addVertex, Digraph.bind, Digraph.get, Digraph.put,
    Digraph.throw.
  destruct (StdMap.count v g =? 0); cbn; [discriminate | now intros [= <- _]].
Qed.

Lemma removeVertex_raises g v (e : exn) g' :
  Digraph.removeVertex v g = Digraph.Raised e g' ->
  e = DigraphException "Invalid vertex"%string.
Proof.
  unfold Digraph.removeVertex, Digraph.bind, Digraph.get, Digraph.put,
    Digraph.throw, Digraph.undefined.
  destruct (StdMap.count v g =? 0); [now intros [= <- _]|].
  destruct (Digraph.removeIncoming v (StdMap.erase v g)); discriminate.
Qed.

Lemma addEdge_raises g a b (ei : EdgeInfo) (e : exn) g' :
  Digraph.addEdge a b ei g = Digraph.Raised e g' ->
  e = DigraphException "Invalid edge"%string.
Proof.
  unfold Digraph.addEdge, Digraph.bind, Digraph.get, Digraph.put,
    Digraph.throw, Digraph.call.
  destruct ((StdMap.count a g =? 0) || (StdMap.count b g =? 0)) eqn:Hab;
    [now intros [= <- _]|].
  apply orb_false_elim in Hab as [Ha _].
  destruct (StdMap.find a g) as [dv|] eqn:Hf.
  - rewrite (edgesFrom_present _ _ _ Hf).
    destruct (found _ _); [now intros [= <- _] | discriminate].
  - rewrite (count_absent _ _ Hf) in Ha. discriminate.
Qed.

Lemma removeEdge_raises g a b (e : exn) g' :
  Digraph.removeEdge a b g = Digraph.Raised e g' ->
  e = DigraphException "Invalid edge"%string.
Proof.
  unfold Digraph.removeEdge, Digraph.bind, Digraph.get, Digraph.put,
    Digraph.throw, Digraph.undefined, Digraph.call.
  destruct ((StdMap.count a g =? 0) || (StdMap.count b g =? 0)) eqn:Hab;
    [now intros [= <- _]|].
  apply orb_false_elim in Hab as [Ha _].
  destruct (StdMap.find a g) as [dv|] eqn:Hf.
  - rewrite (edgesFrom_present _ _ _ Hf).
    destruct (negb (found _ _)); [now intros [= <- _]|].
    destruct (Digraph.eraseWhileIterating b (DigraphVertex.edges dv));
      discriminate.
  - rewrite (count_absent _ _ Hf) in Ha. discriminate.
Qed.
End Thrown.

(** C9, amended. The queries and mutations that fail ([vertexInfo],
    [edges(v)], [edgeCount(v)], [edgeInfo], [addVertex], [addEdge],
    [removeVertex], [removeEdge]) throw a [DigraphException], the only
    error type of the class, whose reason names the kind of failure, and
    the caller can tell three kinds apart, by three pairwise distinct
    reasons:
    - "Vertex already exists": [addVertex] on a vertex number in use;
    - "Invalid vertex": [vertexInfo], [edges(v)], [edgeCount(v)] and
      [removeVertex] on a vertex number that is not in the graph;
    - "Invalid edge": [addEdge], [edgeInfo] and [removeEdge].
    None of these operations ever throws anything else. The two failure
    cases of an edge operation are not told apart: [addEdge] throws
    "Invalid edge" when an endpoint is absent and also when the edge is
    already present; [edgeInfo] and [removeEdge] throw "Invalid edge" when
    an endpoint is absent and also when both endpoints exist and only the
    edge is missing. *)
Theorem failing_operations_reasons
        {VertexInfo EdgeInfo : Type} (g : Digraph.t VertexInfo EdgeInfo)
        (v a b : Z) (vi : VertexInfo) (ei : EdgeInfo) :
  let duplicate := DigraphException "Vertex already exists"%string in
  let noVertex := DigraphException "Invalid vertex"%string in
  let invalid := DigraphException "Invalid edge"%string in
  (duplicate <> noVertex /\ duplicate <> invalid /\ noVertex <> invalid)
  /\ ((In v (Digraph.vertices g) ->
       Digraph.addVertex v vi g = Digraph.Raised duplicate g)
      /\ (~ In v (Digraph.vertices g) ->
          Digraph.vertexInfo v g = Throw noVertex
          /\ Digraph.edgesFrom v g = Throw noVertex
          /\ Digraph.edgeCountOf v g = Throw noVertex
          /\ Digraph.removeVertex v g = Digraph.Raised noVertex g)
      /\ (~ In a (Digraph.vertices g) \/ ~ In b (Digraph.vertices g)
          \/ Digraph.hasEdge a b g ->
          Digraph.addEdge a b ei g = Digraph.Raised invalid g)
      /\ (~ In a (Digraph.vertices g) \/ ~ In b (Digraph.vertices g)
          \/ ~ Digraph.hasEdge a b g ->
          Digraph.edgeInfo a b g = Throw invalid
          /\ Digraph.removeEdge a b g = Digraph.Raised invalid g))
  /\ (forall e : exn,
        ((exists g', Digraph.addVertex v vi g = Digraph.Raised e g') ->
         e = duplicate)
        /\ (Digraph.vertexInfo v g = Throw e
            \/ Digraph.edgesFrom v g = Throw e
            \/ Digraph.edgeCountOf v g = Throw e
            \/ (exists g', Digraph.removeVertex v g = Digraph.Raised e g') ->
            e = noVertex)
        /\ ((exists g', Digraph.addEdge a b ei g = Digraph.Raised e g')
            \/ Digraph.edgeInfo a b g = Throw e
            \/ (exists g', Digraph.removeEdge a b g = Digraph.Raised e g') ->
            e = invalid)).
Proof.
  intros duplicate noVertex invalid. split; [|split].
  - split; [|split]; discriminate.
  - split; [|split; [|split]].
    + now apply addVertex_rejected.
    + intros Hv. pose proof Hv as Hf. apply find_None_keys in Hf.
      split; [|split; [|split]].
      * unfold Digraph.vertexInfo. now rewrite (count_absent _ _ Hf).
      * now apply edgesFrom_absent.
      * unfold Digraph.edgeCountOf. now rewrite (count_absent _ _ Hf).
      * now apply removeVertex_rejected.
    + now apply addEdge_rejected.
    + intros H. split; [now apply edgeInfo_rejected | now apply removeEdge_rejected].
  - intros e. split; [|split].
    + intros [g' H]. now apply addVertex_raises in H.
    + intros [H|[H|[H|[g' H]]]].
      * apply (vertex_queries_throw g v e). now left.
      * apply (vertex_queries_throw g v e). right. now left.
      * apply (vertex_queries_throw g v e). right. now right.
      * now apply removeVertex_raises in H.
    + intros [[g' H]|[H|[g' H]]].
      * now apply addEdge_raises in H.
      * now apply edgeInfo_throws in H.
      * now apply removeEdge_raises in H.
Qed.

Lemma failing_operations_reasons_witness :
  let duplicate := DigraphException "Vertex already exists"%string in
  let noVertex := DigraphException "Invalid vertex"%string in
  let invalid := DigraphException "Invalid edge"%string in
  (Digraph.addVertex 1 tt Graphs.oneEdge = Digraph.Raised duplicate Graphs.oneEdge
   /\ Digraph.removeVertex 3 Graphs.oneEdge
      = Digraph.Raised noVertex Graphs.oneEdge
   /\ Digraph.vertexInfo 3 Graphs.oneEdge = Throw noVertex)
  /\ (Digraph.addEdge 1 3 tt Graphs.oneEdge = Digraph.Raised invalid Graphs.oneEdge
      /\ Digraph.addEdge 1 2 tt Graphs.oneEdge
         = Digraph.Raised invalid Graphs.oneEdge)
  /\ (Digraph.edgeInfo 3 1 Graphs.oneEdge = Throw invalid
      /\ Digraph.edgeInfo 2 1 Graphs.oneEdge = Throw invalid)
  /\ (Digraph.removeEdge 3 1 Graphs.oneEdge
      = Digraph.Raised invalid Graphs.oneEdge
      /\ Digraph.removeEdge 2 1 Graphs.oneEdge
         = Digraph.Raised invalid Graphs.oneEdge).
Proof.
  assert (H1 : In 1 (Digraph.vertices Graphs.oneEdge)) by (cbn; now left).
  assert (H3 : ~ In 3 (Digraph.vertices Graphs.oneEdge)).
  { cbn. intros [H|[H|[]]]; discriminate H. }
  assert (H12 : Digraph.hasEdge 1 2 Graphs.oneEdge).
  { exists [(1, 2)]. split; [reflexivity | left; reflexivity]. }
  assert (H21 : ~ Digraph.hasEdge 2 1 Graphs.oneEdge).
  { intros [temp [Hq Hin]]. cbv in Hq. injection Hq as <-. destruct Hin. }
  intros duplicate noVertex invalid.
  split; [split; [|split] | split; [split | split; split]].
  - apply (failing_operations_reasons Graphs.oneEdge 1 1 2 tt tt). exact H1.
  - apply (failing_operations_reasons Graphs.oneEdge 3 1 2 tt tt). exact H3.
  - apply (failing_operations_reasons Graphs.oneEdge 3 1 2 tt tt). exact H3.
  - apply (failing_operations_reasons Graphs.oneEdge 1 1 3 tt tt). tauto.
  - apply (failing_operations_reasons Graphs.oneEdge 1 1 2 tt tt). tauto.
  - apply (failing_operations_reasons Graphs.oneEdge 1 3 1 tt tt). tauto.
  - apply (failing_operations_reasons Graphs.oneEdge 1 2 1 tt tt). tauto.
  - apply (failing_operations_reasons Graphs.oneEdge 1 3 1 tt tt). tauto.
  - apply (failing_operations_reasons Graphs.oneEdge 1 2 1 tt tt). tauto.
Defined.

(** ** Self-loops *)

Section SelfLoop.
Context {VertexInfo EdgeInfo : Type}.
Implicit Types (g : Digraph.t VertexInfo EdgeInfo).

Lemma edges_In g k (dv : DigraphVertex.t VertexInfo EdgeInfo)
      (it : DigraphEdge.t EdgeInfo) :
  In (k, dv) g -> In it (DigraphVertex.edges dv) ->
  In (DigraphEdge.fromVertex it, DigraphEdge.toVertex it) (Digraph.edges g).
Proof.
  intros Hk Hit. unfold Digraph.edges. apply in_flat_map.
  exists (k, dv). split; [assumption|]. cbn [snd].
  apply in_map_iff. now exists it.
Qed.

Lemma addEdge_accepted g a b (ei : EdgeInfo) dv :
  StdMap.find a g = Some dv ->
  In b (Digraph.vertices g) ->
  ~ Digraph.hasEdge a b g ->
  Digraph.addEdge a b ei g
  = Digraph.Done tt
      (StdMap.update a
         (fun dv => DigraphVertex.Build (DigraphVertex.vinfo dv)
                      (DigraphVertex.edges dv ++ [DigraphEdge.Build a b ei]))
         g).
Proof.
  intros Ha Hb He. apply find_Some_keys in Hb.
  destruct (StdMap.find b g) as [dvb|] eqn:Hfb; [|contradiction].
  unfold Digraph.addEdge, Digraph.bind, Digraph.get, Digraph.call.
  rewrite (count_present _ _ _ Ha), (count_present _ _ _ Hfb). cbn [orb].
  rewrite (edgesFrom_present _ _ _ Ha), (no_edge_not_found _ _ _ _ Ha He).
  now rewrite Ha.
Qed.
End SelfLoop.

(** C10. Self-loops are permitted. On a graph that contains vertex [v] and
    no edge from [v] to itself, [addEdge(v, v, p)] returns normally; in the
    graph it leaves, [edgeInfo(v, v)] returns [p], [edges(v)] has gained
    the pair (v, v) and [edgeCount(v)] has grown by one, and [edges()]
    contains the pair (v, v). *)
Theorem addEdge_self_loop
        {VertexInfo EdgeInfo : Type} (g : Digraph.t VertexInfo EdgeInfo)
        (v : Z) (p : EdgeInfo) :
  In v (Digraph.vertices g) ->
  ~ Digraph.hasEdge v v g ->
  exists g' temp,
    Digraph.addEdge v v p g = Digraph.Done tt g'
    /\ Digraph.edgeInfo v v g' = Ok p
    /\ Digraph.edgesFrom v g = Ok temp
    /\ Digraph.edgesFrom v g' = Ok (temp ++ [(v, v)])
    /\ Digraph.edgeCountOf v g = Ok (to_int (Z.of_nat (length temp)))
    /\ Digraph.edgeCountOf v g' = Ok (to_int (Z.of_nat (length temp) + 1))
    /\ In (v, v) (Digraph.edges g').
Proof.
  intros Hv He.
  pose proof Hv as Hf. apply find_Some_keys in Hf.
  destruct (StdMap.find v g) as [dv|] eqn:Hfind; [clear Hf | contradiction].
  set (loop := DigraphEdge.Build v v p).
  set (dv' := DigraphVertex.Build (DigraphVertex.vinfo dv)
                (DigraphVertex.edges dv ++ [loop])).
  set (g' := StdMap.update v
               (fun dv => DigraphVertex.Build (DigraphVertex.vinfo dv)
                            (DigraphVertex.edges dv ++ [loop])) g).
  assert (Hfind' : StdMap.find v g' = Some dv').
  { unfold g'. now rewrite find_update, Hfind. }
  assert (Hnone : forall it, In it (DigraphVertex.edges dv) ->
                             DigraphEdge.toVertex it <> v).
  { intros it Hit Hto. apply He, hasEdge_stored. now exists dv, it. }
  exists g', (map (fun it => (v, DigraphEdge.toVertex it))
                  (DigraphVertex.edges dv)).
  split; [|split; [|split; [|split; [|split; [|split]]]]].
  - now apply (addEdge_accepted g v v p dv).
  - unfold Digraph.edgeInfo.
    rewrite (count_present _ _ _ Hfind'). cbn [orb].
    rewrite (edgesFrom_present _ _ _ Hfind'), Hfind'.
    assert (Hfound : found (v, v)
              (map (fun it => (v, DigraphEdge.toVertex it))
                   (DigraphVertex.edges dv')) = true).
    { apply found_In, in_targets. exists loop. split; [|reflexivity].
      cbn. apply in_or_app. right. now left. }
    rewrite Hfound. cbn [negb DigraphVertex.edges dv'].
    now rewrite (find_first_target v (DigraphVertex.edges dv) loop Hnone eq_refl).
  - now apply edgesFrom_present.
  - rewrite (edgesFrom_present _ _ _ Hfind'). cbn. now rewrite map_app.
  - unfold Digraph.edgeCountOf.
    now rewrite (count_present _ _ _ Hfind), Hfind, length_map.
  - unfold Digraph.edgeCountOf.
    rewrite (count_present _ _ _ Hfind'), Hfind'. cbn.
    rewrite length_app, length_map. cbn. do 2 f_equal. lia.
  - apply (edges_In g' v dv' loop).
    + exact (update_In v
               (fun dv => DigraphVertex.Build (DigraphVertex.vinfo dv)
                            (DigraphVertex.edges dv ++ [loop]))
               g dv Hfind).
    + cbn. apply in_or_app. right. now left.
Qed.

Lemma addEdge_self_loop_witness :
  exists g' temp,
    Digraph.addEdge 2 2 tt Graphs.oneEdge = Digraph.Done tt g'
    /\ Digraph.edgeInfo 2 2 g' = Ok tt
    /\ Digraph.edgesFrom 2 Graphs.oneEdge = Ok temp
    /\ Digraph.edgesFrom 2 g' = Ok (temp ++ [(2, 2)])
    /\ Digraph.edgeCountOf 2 Graphs.oneEdge = Ok (to_int (Z.of_nat (length temp)))
    /\ Digraph.edgeCountOf 2 g' = Ok (to_int (Z.of_nat (length temp) + 1))
    /\ In (2, 2) (Digraph.edges g').
Proof.
  apply (addEdge_self_loop Graphs.oneEdge 2 tt).
  - cbn. right. now left.
  - intros [temp [Hq Hin]]. cbv in Hq. injection Hq as <-. destruct Hin.
Defined.

(** ** Erasing while iterating *)

Section Erasing.
Context {VertexInfo EdgeInfo : Type}.
Implicit Types (g : Digraph.t VertexInfo EdgeInfo)
               (l : list (DigraphEdge.t EdgeInfo)).

(** The erase loop is defined exactly on the lists it has nothing to
    erase from, and leaves those as they are. *)
Lemma eraseWhileIterating_spec (v : Z) l :
  Digraph.eraseWhileIterating v l
  = if existsb (fun it => DigraphEdge.toVertex it =? v) l then None
    else Some l.
Proof.
  induction l as [|it l IH]; cbn; [reflexivity|].
  destruct (DigraphEdge.toVertex it =? v); cbn; [reflexivity|].
  rewrite IH. now destruct (existsb _ l).
Qed.

Lemma removeIncoming_spec (v : Z) g :
  Digraph.removeIncoming v g
  = if existsb
         (fun iter : Z * DigraphVertex.t VertexInfo EdgeInfo =>
            existsb (fun it => DigraphEdge.toVertex it =? v)
                    (DigraphVertex.edges (snd iter)))
         g
    then None else Some g.
Proof.
  induction g as [|[k dv] g IH]; cbn; [reflexivity|].
  rewrite eraseWhileIterating_spec.
  destruct (existsb _ (DigraphVertex.edges dv)); cbn; [reflexivity|].
  rewrite IH. destruct (existsb _ g); cbn; [reflexivity|].
  now destruct dv.
Qed.

Lemma erase_absent (k : Z) (m : StdMap.t (DigraphVertex.t VertexInfo EdgeInfo)) :
  StdMap.find k m = None -> StdMap.erase k m = m.
Proof.
  induction m as [|[k' v'] m IH]; cbn; [reflexivity|].
  destruct (k =? k'); [discriminate|]. intros H. now rewrite IH.
Qed.

(** [removeVertex] on a present vertex: undefined as soon as another
    vertex has an edge to it, and otherwise the map without its entry
    (its outgoing edges go with it). *)
Lemma removeVertex_present g v :
  In v (Digraph.vertices g) ->
  Digraph.removeVertex v g
  = if existsb
         (fun iter : Z * DigraphVertex.t VertexInfo EdgeInfo =>
            existsb (fun it => DigraphEdge.toVertex it =? v)
                    (DigraphVertex.edges (snd iter)))
         (StdMap.erase v g)
    then Digraph.UB
    else Digraph.Done tt (StdMap.erase v (StdMap.erase v g)).
Proof.
  intros Hv. apply find_Some_keys in Hv.
  destruct (StdMap.find v g) as [dv|] eqn:Hf; [|contradiction].
  unfold Digraph.removeVertex, Digraph.bind, Digraph.get, Digraph.put.
  rewrite (count_present _ _ _ Hf), removeIncoming_spec.
  now destruct (existsb _ (StdMap.erase v g)).
Qed.

(** [removeEdge] on a present edge always erases, and then steps the
    erased iterator. *)
Lemma removeEdge_present g a b :
  In b (Digraph.vertices g) ->
  Digraph.hasEdge a b g ->
  Digraph.removeEdge a b g = Digraph.UB.
Proof.
  intros Hb He. apply find_Some_keys in Hb.
  destruct (StdMap.find b g) as [dvb|] eqn:Hfb; [|contradiction].
  apply hasEdge_stored in He as [dv [it [Hfa [Hit Hto]]]].
  unfold Digraph.removeEdge, Digraph.bind, Digraph.get, Digraph.call.
  rewrite (count_present _ _ _ Hfa), (count_present _ _ _ Hfb). cbn [orb].
  rewrite (edgesFrom_present _ _ _ Hfa).
  assert (Hfound : found (a, b)
            (map (fun it => (a, DigraphEdge.toVertex it))
                 (DigraphVertex.edges dv)) = true).
  { apply found_In, in_targets. now exists it. }
  rewrite Hfound, Hfa, eraseWhileIterating_spec. cbn [negb].
  assert (Hex : existsb (fun it => DigraphEdge.toVertex it =? b)
                        (DigraphVertex.edges dv) = true).
  { apply existsb_exists. exists it. split; [assumption | now apply Z.eqb_eq]. }
  now rewrite Hex.
Qed.
End Erasing.

(** C5. Whenever vertex [v] is present and some other vertex still has an
    edge to it, [removeVertex(v)] has no defined outcome: having removed
    [v] from the map, it erases that edge through the iterator it is
    walking the edge list with, and then increments that iterator. So it
    is on the graph with vertices 1, 2 and the edge 1 -> 2, for
    [removeVertex(2)]. *)
Theorem removeVertex_incoming_edge_undefined
        {VertexInfo EdgeInfo : Type} (g : Digraph.t VertexInfo EdgeInfo)
        (v k : Z) (dv : DigraphVertex.t VertexInfo EdgeInfo)
        (it : DigraphEdge.t EdgeInfo) :
  In v (Digraph.vertices g) ->
  In (k, dv) (StdMap.erase v g) ->
  In it (DigraphVertex.edges dv) ->
  DigraphEdge.toVertex it = v ->
  Digraph.removeVertex v g = Digraph.UB.
Proof.
  intros Hv Hk Hit Hto. rewrite (removeVertex_present g v Hv).
  assert (Hex : existsb
                  (fun iter : Z * DigraphVertex.t VertexInfo EdgeInfo =>
                     existsb (fun it => DigraphEdge.toVertex it =? v)
                             (DigraphVertex.edges (snd iter)))
                  (StdMap.erase v g) = true).
  { apply existsb_exists. exists (k, dv). split; [assumption|].
    apply existsb_exists. exists it. split; [assumption | now apply Z.eqb_eq]. }
  now rewrite Hex.
Qed.

Lemma removeVertex_incoming_edge_undefined_witness :
  Digraph.removeVertex 2 Graphs.oneEdge = Digraph.UB.
Proof.
  apply (removeVertex_incoming_edge_undefined Graphs.oneEdge 2 1
           (DigraphVertex.Build tt [DigraphEdge.Build 1 2 tt])
           (DigraphEdge.Build 1 2 tt)).
  - cbn. right. now left.
  - cbn. now left.
  - cbn. now left.
  - reflexivity.
Defined.

(** ** Which vertices get a predecessor *)

Section Predecessors.
Context {VertexInfo EdgeInfo : Type}.
Context (weightFn : EdgeInfo -> float).
Implicit Types (g : Digraph.t VertexInfo EdgeInfo)
               (l : list (DigraphEdge.t EdgeInfo))
               (shortestPath : StdMap.t Z).

Lemma assign_keys {V : Type} (k x : Z) (v : V) (m : StdMap.t V) :
  In x (StdMap.keys (StdMap.assign k v m)) -> x = k \/ In x (StdMap.keys m).
Proof.
  induction m as [|[k' v'] m IH]; cbn.
  - intros [H|[]]. now left.
  - destruct (k <? k'); [|destruct (k =? k') eqn:E]; cbn.
    + intros [H|H]; auto.
    + apply Z.eqb_eq in E. subst k'. intros [H|H]; auto.
    + intros [H|H]; auto. apply IH in H as [H|H]; auto.
Qed.

Lemma find_In {V : Type} (k : Z) (v : V) (m : StdMap.t V) :
  StdMap.find k m = Some v -> In (k, v) m.
Proof.
  induction m as [|[k' v'] m IH]; cbn; [discriminate|].
  destruct (Z.eqb_spec k k') as [->|_].
  - intros [= ->]. now left.
  - intros H. right. now apply IH.
Qed.

(** Relaxing the edges [l] only gives predecessors to targets of [l]. *)
Lemma relax_keys current l : forall shortestDist shortestPath x,
  In x (StdMap.keys
          (snd (Digraph.relax weightFn current l shortestDist shortestPath))) ->
  In x (StdMap.keys shortestPath) \/ In x (map DigraphEdge.toVertex l).
Proof.
  induction l as [|it l IH]; intros sd sp x; cbn [Digraph.relax map].
  - cbn. auto.
  - destruct (StdMap.index 0%float current sd) as [dcur sd1].
    destruct (StdMap.index 0%float (DigraphEdge.toVertex it) sd1) as [dto sd2].
    destruct (PrimFloat.ltb _ dto); intros H; apply IH in H as [H|H].
    + apply assign_keys in H as [H|H]; [right; left; now symmetry | now left].
    + right. now right.
    + now left.
    + right. now right.
Qed.

Lemma settle_keys g minVerts fuel :
  forall i unvisited shortestDist shortestPath result x,
    Digraph.settle fuel minVerts i weightFn g unvisited
                   shortestDist shortestPath = Ok result ->
    In x (StdMap.keys result) ->
    In x (StdMap.keys shortestPath) \/ In x (map snd (Digraph.edges g)).
Proof.
  induction fuel as [|fuel IH]; intros i unvisited sd sp result x;
    destruct unvisited as [|u unvisited]; cbn [Digraph.settle];
    try discriminate; try (intros [= <-]; now left).
  destruct (Digraph.findMinimum _ _ _) as [current| | |]; try discriminate.
  destruct (StdMap.find current g) as [dv|] eqn:Hf; try discriminate.
  pose proof (relax_keys current (DigraphVertex.edges dv) sd sp x) as Hr.
  destruct (Digraph.relax _ _ _ _ _) as [sd' sp']. cbn [snd] in Hr.
  intros Hs Hx. destruct (IH _ _ _ _ _ _ Hs Hx) as [H|H]; [|now right].
  destruct (Hr H) as [H'|H']; [now left | right].
  apply in_map_iff in H' as [it [<- Hit]].
  apply in_map_iff. exists (DigraphEdge.fromVertex it, DigraphEdge.toVertex it).
  split; [reflexivity|].
  eapply edges_In; [apply find_In; eassumption | assumption].
Qed.

(** Whenever [findShortestPaths] returns, the keys of its map are among
    the start vertex and the vertices some edge points to. *)
Lemma findShortestPaths_keys g minVerts fuel startVertex result x :
  Digraph.findShortestPaths fuel minVerts startVertex weightFn g = Ok result ->
  In x (StdMap.keys result) ->
  x = startVertex \/ In x (map snd (Digraph.edges g)).
Proof.
  unfold Digraph.findShortestPaths. intros Hs Hx.
  destruct (settle_keys _ _ _ _ _ _ _ _ _ Hs Hx) as [H|H]; [|now right].
  cbn in H. destruct H as [H|[]]. now left.
Qed.
End Predecessors.

(** ** The representation invariant *)

Section MapShape.
Context {V : Type}.
Implicit Types (m : StdMap.t V) (k : Z).

Lemma insert_In k (v : V) m p :
  In p (StdMap.insert k v m) -> p = (k, v) \/ In p m.
Proof.
  induction m as [|[k' v'] m IH]; cbn.
  - intros [H|[]]. now left.
  - destruct (k <? k'); [|destruct (k =? k')]; cbn.
    + intros [H|H]; auto.
    + auto.
    + intros [H|H]; auto. apply IH in H as [H|H]; auto.
Qed.

Lemma insert_ascending k (v : V) m :
  Digraph.ascending (StdMap.keys m) ->
  Digraph.ascending (StdMap.keys (StdMap.insert k v m)).
Proof.
  induction m as [|[k' v'] m IH]; cbn.
  - intros _. split; [intros ? []|exact I].
  - intros [Hlt Hasc].
    destruct (Z.ltb_spec k k') as [Hk|Hk]; [|destruct (Z.eqb_spec k k') as [->|Hne]];
      cbn.
    + split; [|now split].
      intros x [<-|Hx]; [assumption|]. specialize (Hlt x Hx). lia.
    + now split.
    + split; [|now apply IH].
      intros x Hx. apply in_map_iff in Hx as [[x' vx] [<- Hx]].
      apply insert_In in Hx as [[= -> ->]|Hx]; cbn; [lia|].
      apply Hlt. apply in_map_iff. now exists (x', vx).
Qed.

Lemma update_keys k (f : V -> V) m :
  StdMap.keys (StdMap.update k f m) = StdMap.keys m.
Proof.
  induction m as [|[k' v'] m IH]; cbn; [reflexivity|].
  destruct (k =? k'); cbn; [reflexivity | f_equal; exact IH].
Qed.

Lemma update_In_inv k (f : V -> V) m k' (v' : V) :
  In (k', v') (StdMap.update k f m) ->
  In (k', v') m \/ (k' = k /\ exists v0, In (k, v0) m /\ v' = f v0).
Proof.
  induction m as [|[k0 v0] m IH]; cbn; [tauto|].
  destruct (Z.eqb_spec k k0) as [->|Hne]; cbn.
  - intros [[= <- <-]|H]; [right | left; now right].
    split; [reflexivity|]. exists v0. split; [now left | reflexivity].
  - intros [H|H]; [left; now left|].
    apply IH in H as [H|[-> [v1 [H1 H2]]]]; [left; now right | right].
    split; [reflexivity|]. exists v1. split; [now right | assumption].
Qed.

Lemma erase_In k m p : In p (StdMap.erase k m) -> In p m.
Proof.
  induction m as [|[k' v'] m IH]; cbn; [tauto|].
  destruct (k =? k'); cbn; [now right|].
  intros [H|H]; [now left | right; now apply IH].
Qed.

Lemma erase_ascending k m :
  Digraph.ascending (StdMap.keys m) ->
  Digraph.ascending (StdMap.keys (StdMap.erase k m)).
Proof.
  induction m as [|[k' v'] m IH]; cbn; [tauto|].
  intros [Hlt Hasc]. destruct (k =? k'); cbn; [assumption|].
  split; [|now apply IH].
  intros x Hx. apply Hlt. apply in_map_iff in Hx as [p [<- Hp]].
  apply in_map. now apply erase_In in Hp.
Qed.

Lemma ascending_find k (v : V) m :
  Digraph.ascending (StdMap.keys m) -> In (k, v) m -> StdMap.find k m = Some v.
Proof.
  induction m as [|[k' v'] m IH]; cbn; [tauto|].
  intros [Hlt Hasc] [[= -> ->]|Hin].
  - now rewrite Z.eqb_refl.
  - destruct (Z.eqb_spec k k') as [->|_]; [|now apply IH].
    exfalso. assert (k' < k') by (apply Hlt, in_map_iff; now exists (k', v)). lia.
Qed.
End MapShape.

Section Invariant.
Context {VertexInfo EdgeInfo : Type}.
Implicit Types (g : Digraph.t VertexInfo EdgeInfo)
               (c : Digraph.mutation VertexInfo EdgeInfo).

Lemma wellFormed_empty : Digraph.wellFormed (@Digraph.empty VertexInfo EdgeInfo).
Proof. split; [exact I | intros ? ? []]. Qed.

Lemma found_targets (a b : Z) (l : list (DigraphEdge.t EdgeInfo)) :
  found (a, b) (map (fun it => (a, DigraphEdge.toVertex it)) l)
  = existsb (fun it => DigraphEdge.toVertex it =? b) l.
Proof.
  unfold found. induction l as [|it l IH]; cbn; [reflexivity|].
  rewrite IH. unfold pair_eqb. cbn [fst snd].
  now rewrite Z.eqb_refl, (Z.eqb_sym b).
Qed.

Lemma addVertex_Done g v (vi : VertexInfo) u g' :
  Digraph.addVertex v vi g = Digraph.Done u g' ->
  g' = StdMap.insert v (DigraphVertex.Build vi []) g.
Proof.
  unfold Digraph.addVertex, Digraph.bind, Digraph.get, Digraph.put, Digraph.throw.
  destruct (StdMap.count v g =? 0); cbn; [|discriminate].
  now intros [= _ <-].
Qed.

Lemma addEdge_Done g a b (ei : EdgeInfo) u g' :
  Digraph.addEdge a b ei g = Digraph.Done u g' ->
  exists dv,
    StdMap.find a g = Some dv
    /\ ~ In b (map DigraphEdge.toVertex (DigraphVertex.edges dv))
    /\ g' = StdMap.update a
              (fun dv => DigraphVertex.Build (DigraphVertex.vinfo dv)
                           (DigraphVertex.edges dv ++ [DigraphEdge.Build a b ei]))
              g.
Proof.
  unfold Digraph.addEdge, Digraph.bind, Digraph.get, Digraph.put,
    Digraph.throw, Digraph.call.
  destruct (StdMap.find a g) as [dv|] eqn:Ha.
  - rewrite (count_present _ _ _ Ha). cbn [orb].
    destruct (StdMap.count b g =? 0); [discriminate|].
    rewrite (edgesFrom_present _ _ _ Ha), found_targets.
    destruct (existsb _ (DigraphVertex.edges dv)) eqn:Hex; [discriminate|].
    intros [= _ <-]. exists dv. split; [reflexivity|]. split; [|reflexivity].
    intros Hin. apply in_map_iff in Hin as [it [Hto Hit]].
    assert (Htrue : existsb (fun it => DigraphEdge.toVertex it =? b)
                            (DigraphVertex.edges dv) = true).
    { apply existsb_exists. exists it. split; [assumption | now apply Z.eqb_eq]. }
    congruence.
  - rewrite (count_absent _ _ Ha). cbn [orb]. discriminate.
Qed.

Lemma removeVertex_Done g v u g' :
  Digraph.removeVertex v g = Digraph.Done u g' ->
  g' = StdMap.erase v (StdMap.erase v g).
Proof.
  unfold Digraph.removeVertex, Digraph.bind, Digraph.get, Digraph.put,
    Digraph.throw, Digraph.undefined.
  destruct (StdMap.count v g =? 0); [discriminate|].
  rewrite removeIncoming_spec.
  destruct (existsb _ (StdMap.erase v g)); [discriminate|].
  now intros [= _ <-].
Qed.

(** [removeEdge] never returns normally. *)
Lemma removeEdge_never_Done g a b u g' :
  Digraph.removeEdge a b g <> Digraph.Done u g'.
Proof.
  unfold Digraph.removeEdge, Digraph.bind, Digraph.get, Digraph.put,
    Digraph.throw, Digraph.undefined, Digraph.call.
  destruct ((StdMap.count a g =? 0) || (StdMap.count b g =? 0));
    [discriminate|].
  destruct (StdMap.find a g) as [dv|] eqn:Ha.
  - rewrite (edgesFrom_present _ _ _ Ha), found_targets, eraseWhileIterating_spec.
    now destruct (existsb _ (DigraphVertex.edges dv)).
  - rewrite (edgesFrom_absent _ _ Ha). discriminate.
Qed.

Lemma perform_wellFormed g c u g' :
  Digraph.wellFormed g ->
  Digraph.perform c g = Digraph.Done u g' ->
  Digraph.wellFormed g'.
Proof.
  intros [Hasc Hst]. destruct c as [v vi|a b ei|v|a b]; cbn [Digraph.perform];
    intros Hdone.
  - apply addVertex_Done in Hdone as ->. split.
    + now apply insert_ascending.
    + intros k dv Hin. apply insert_In in Hin as [[= -> ->]|Hin].
      * split; [intros ? [] | constructor].
      * now apply Hst.
  - apply addEdge_Done in Hdone as [dv [Ha [Hnew ->]]]. split.
    + unfold Digraph.vertices. now rewrite update_keys.
    + intros k dv' Hin.
      apply update_In_inv in Hin as [Hin|[-> [dv0 [Hin0 ->]]]];
        [now apply Hst|].
      rewrite (ascending_find _ _ _ Hasc Hin0) in Ha. injection Ha as ->.
      destruct (Hst _ _ Hin0) as [Hown Hnd]. cbn. split.
      * intros it Hit. apply in_app_or in Hit as [Hit|[<-|[]]]; auto.
      * rewrite map_app. cbn. apply NoDup_app; [assumption | | ].
        -- repeat constructor. intros [].
        -- intros x Hx [<-|[]]. contradiction.
  - apply removeVertex_Done in Hdone as ->. split.
    + now apply erase_ascending, erase_ascending.
    + intros k dv Hin. apply Hst. now apply erase_In, erase_In in Hin.
  - now apply removeEdge_never_Done in Hdone.
Qed.

Lemma performAll_wellFormed (cs : list (Digraph.mutation VertexInfo EdgeInfo)) :
  forall g u g',
    Digraph.wellFormed g ->
    Digraph.performAll cs g = Digraph.Done u g' ->
    Digraph.wellFormed g'.
Proof.
  induction cs as [|c cs IH]; intros g u g' Hwf; cbn [Digraph.performAll].
  - unfold Digraph.ret. now intros [= _ <-].
  - unfold Digraph.bind.
    destruct (Digraph.perform c g) as [u1 g1| |] eqn:Hc; try discriminate.
    apply IH. now apply (perform_wellFormed g c u1 g1).
Qed.

(** On a well-formed graph, [edges(from)] and [edges()] agree on which
    pairs are present. *)
Lemma hasEdge_edges g a b :
  Digraph.wellFormed g ->
  Digraph.hasEdge a b g <-> In (a, b) (Digraph.edges g).
Proof.
  intros [Hasc Hst]. rewrite hasEdge_stored. split.
  - intros [dv [it [Hf [Hit <-]]]]. apply find_In in Hf.
    destruct (Hst _ _ Hf) as [Hown _]. rewrite <- (Hown it Hit).
    now apply (edges_In g a dv it).
  - intros Hin. unfold Digraph.edges in Hin.
    apply in_flat_map in Hin as [[k dv] [Hk Hin]]. cbn [snd] in Hin.
    apply in_map_iff in Hin as [it [[= <- <-] Hit]].
    destruct (Hst _ _ Hk) as [Hown _]. rewrite (Hown it Hit).
    exists dv, it. split; [|split; [assumption | reflexivity]].
    now apply ascending_find.
Qed.
End Invariant.

(** ** Further properties of the member functions *)

(** X1. [removeEdge] never returns normally, on any graph. On an edge
    that is present it has no defined outcome: the loop erases the edge
    through the iterator it is walking the list with, and then increments
    that iterator. In every other case (an endpoint is not a vertex, or
    the edge is missing) it throws "Invalid edge". *)
Theorem removeEdge_present_edge_undefined
        {VertexInfo EdgeInfo : Type} (g : Digraph.t VertexInfo EdgeInfo)
        (a b : Z) :
  (In b (Digraph.vertices g) -> Digraph.hasEdge a b g ->
   Digraph.removeEdge a b g = Digraph.UB)
  /\ (~ In a (Digraph.vertices g) \/ ~ In b (Digraph.vertices g)
      \/ ~ Digraph.hasEdge a b g ->
      Digraph.removeEdge a b g
      = Digraph.Raised (DigraphException "Invalid edge"%string) g)
  /\ (Digraph.removeEdge a b g = Digraph.UB
      \/ Digraph.removeEdge a b g
         = Digraph.Raised (DigraphException "Invalid edge"%string) g)
  /\ forall u g', Digraph.removeEdge a b g <> Digraph.Done u g'.
Proof.
  split; [|split; [|split]].
  - apply removeEdge_present.
  - apply removeEdge_rejected.
  - destruct (in_dec Z.eq_dec b (Digraph.vertices g)) as [Hb|Hb];
      [|right; apply removeEdge_rejected; tauto].
    destruct (Digraph.removeEdge a b g) as [u g'| e g'|] eqn:Hr.
    + now apply removeEdge_never_Done in Hr.
    + right. pose proof (removeEdge_raises _ _ _ _ _ Hr) as ->.
      assert (Hrej : ~ Digraph.hasEdge a b g).
      { intros He. rewrite (removeEdge_present g a b Hb He) in Hr.
        discriminate. }
      rewrite <- Hr. apply removeEdge_rejected. tauto.
    + now left.
  - intros u g'. apply removeEdge_never_Done.
Qed.

Lemma removeEdge_present_edge_undefined_witness :
  Digraph.removeEdge 1 2 Graphs.oneEdge = Digraph.UB
  /\ Digraph.removeEdge 2 1 Graphs.oneEdge
     = Digraph.Raised (DigraphException "Invalid edge"%string) Graphs.oneEdge.
Proof.
  split.
  - apply (removeEdge_present_edge_undefined Graphs.oneEdge 1 2).
    + cbn. right. now left.
    + exists [(1, 2)]. split; [reflexivity | left; reflexivity].
  - apply (removeEdge_present_edge_undefined Graphs.oneEdge 2 1).
    right. right.
    intros [temp [Hq Hin]]. cbv in Hq. injection Hq as <-. destruct Hin.
Defined.

(** X2. On every graph that a sequence of public calls builds from the
    empty graph, [isStronglyConnected] returns true exactly when the graph
    has no vertex. *)
Theorem isStronglyConnected_iff_no_vertex
        {VertexInfo EdgeInfo : Type}
        (cs : list (Digraph.mutation VertexInfo EdgeInfo))
        (g : Digraph.t VertexInfo EdgeInfo) (fuel : nat) :
  Digraph.performAll cs Digraph.empty = Digraph.Done tt g ->
  Digraph.isStronglyConnected (S fuel) g
  = Ok (Nat.eqb (length (Digraph.vertices g)) 0).
Proof.
  intros Hbuilt.
  pose proof (performAll_wellFormed cs _ _ _ wellFormed_empty Hbuilt) as [_ Hst].
  destruct g as [|[k dv] g]; [reflexivity|].
  cbn [Digraph.vertices StdMap.keys map length Nat.eqb].
  apply isStronglyConnected_nonempty. apply (Hst k dv). now left.
Qed.

Lemma isStronglyConnected_iff_no_vertex_witness :
  Digraph.isStronglyConnected 1 (Graphs.cycle 3)
  = Ok (Nat.eqb (length (Digraph.vertices (Graphs.cycle 3))) 0).
Proof.
  apply (isStronglyConnected_iff_no_vertex
           (Graphs.cycleCalls 3 0) (Graphs.cycle 3) 0).
  reflexivity.
Defined.

(** X3. [removeVertex] on a present vertex is undefined as soon as some
    other vertex has an edge to it; otherwise it returns with the vertex's
    entry (and with it its outgoing edges) erased and every other entry as
    it was. *)
Theorem removeVertex_defined_without_incoming
        {VertexInfo EdgeInfo : Type} (g : Digraph.t VertexInfo EdgeInfo)
        (v : Z) :
  In v (Digraph.vertices g) ->
  Digraph.removeVertex v g
  = if existsb
         (fun iter : Z * DigraphVertex.t VertexInfo EdgeInfo =>
            existsb (fun it => DigraphEdge.toVertex it =? v)
                    (DigraphVertex.edges (snd iter)))
         (StdMap.erase v g)
    then Digraph.UB
    else Digraph.Done tt (StdMap.erase v (StdMap.erase v g)).
Proof. apply removeVertex_present. Qed.

Lemma removeVertex_defined_without_incoming_witness :
  Digraph.removeVertex 1 Graphs.oneEdge
  = Digraph.Done tt (Graphs.single 2 tt).
Proof.
  apply (removeVertex_defined_without_incoming Graphs.oneEdge 1).
  cbn. now left.
Defined.

(** X4. Whenever [findShortestPaths] returns, every key of the returned
    map is the start vertex or the target of some edge of the graph. *)
Theorem findShortestPaths_keys_are_start_or_targets
        {VertexInfo EdgeInfo : Type} (weightFn : EdgeInfo -> float)
        (g : Digraph.t VertexInfo EdgeInfo) (minVerts : nat -> Z)
        (fuel : nat) (startVertex : Z) (result : StdMap.t Z) (x : Z) :
  Digraph.findShortestPaths fuel minVerts startVertex weightFn g = Ok result ->
  In x (StdMap.keys result) ->
  x = startVertex \/ In x (map snd (Digraph.edges g)).
Proof. apply findShortestPaths_keys. Qed.

Lemma findShortestPaths_keys_are_start_or_targets_witness :
  3 = 1 \/ In 3 (map snd (Digraph.edges
                            (Graphs.triangle true 1%float 1%float 5%float))).
Proof.
  apply (findShortestPaths_keys_are_start_or_targets
           (fun w : float => w)
           (Graphs.triangle true 1%float 1%float 5%float)
           (fun _ => 0) 3 1 [(1, 1); (2, 1); (3, 2)] 3).
  - reflexivity.
  - cbn. right. right. now left.
Defined.

(** X5. On every graph that a sequence of public calls builds from the
    empty graph, [edges(a)] contains the pair (a, b) exactly when [edges()]
    does. *)
Theorem edges_of_vertex_agree_with_edges
        {VertexInfo EdgeInfo : Type}
        (cs : list (Digraph.mutation VertexInfo EdgeInfo))
        (g : Digraph.t VertexInfo EdgeInfo) (a b : Z) :
  Digraph.performAll cs Digraph.empty = Digraph.Done tt g ->
  Digraph.hasEdge a b g <-> In (a, b) (Digraph.edges g).
Proof.
  intros Hbuilt. apply hasEdge_edges.
  exact (performAll_wellFormed cs _ _ _ wellFormed_empty Hbuilt).
Qed.

Lemma edges_of_vertex_agree_with_edges_witness :
  Digraph.hasEdge 2 3 (Graphs.cycle 3) <-> In (2, 3) (Digraph.edges (Graphs.cycle 3)).
Proof.
  apply (edges_of_vertex_agree_with_edges (Graphs.cycleCalls 3 0)).
  reflexivity.
Defined.

(** X6. Whenever a mutating call throws, whatever the exception, the graph
    is the graph before the call. *)
Theorem thrown_call_leaves_graph
        {VertexInfo EdgeInfo : Type} (g g' : Digraph.t VertexInfo EdgeInfo)
        (c : Digraph.mutation VertexInfo EdgeInfo) (e : exn) :
  Digraph.perform c g = Digraph.Raised e g' -> g' = g.
Proof.
  destruct c as [v vi|a b ei|v|a b]; cbn [Digraph.perform];
    unfold Digraph.addVertex, Digraph.addEdge, Digraph.removeVertex,
      Digraph.removeEdge, Digraph.bind, Digraph.get, Digraph.put,
      Digraph.throw, Digraph.undefined, Digraph.call.
  - destruct (StdMap.count v g =? 0); cbn; intros [=]; auto.
  - destruct ((StdMap.count a g =? 0) || (StdMap.count b g =? 0));
      [intros [=]; auto|].
    destruct (Digraph.edgesFrom a g) as [temp|e'| |]; try discriminate;
      [|intros [=]; auto].
    destruct (found (a, b) temp); [intros [=]; auto|].
    destruct (StdMap.find a g); intros [=]; auto.
  - destruct (StdMap.count v g =? 0); [intros [=]; auto|].
    destruct (Digraph.removeIncoming v (StdMap.erase v g)); discriminate.
  - destruct ((StdMap.count a g =? 0) || (StdMap.count b g =? 0));
      [intros [=]; auto|].
    destruct (Digraph.edgesFrom a g) as [temp|e'| |]; try discriminate;
      [|intros [=]; auto].
    destruct (negb (found (a, b) temp)); [intros [=]; auto|].
    destruct (StdMap.find a g) as [dv|]; [|intros [=]; auto].
    destruct (Digraph.eraseWhileIterating b (DigraphVertex.edges dv));
      discriminate.
Qed.

Lemma thrown_call_leaves_graph_witness : Graphs.oneEdge = Graphs.oneEdge.
Proof.
  apply (thrown_call_leaves_graph Graphs.oneEdge Graphs.oneEdge
           (Digraph.RemoveVertex 3) (DigraphException "Invalid vertex"%string)).
  reflexivity.
Defined.

(** ** More on [std::map] *)

Section MapInsert.
Context {V : Type}.
Implicit Types (m : StdMap.t V) (k : Z).

Lemma find_insert k (v : V) m :
  StdMap.find k m = None -> StdMap.find k (StdMap.insert k v m) = Some v.
Proof.
  induction m as [|[k' v'] m IH]; cbn.
  - now rewrite Z.eqb_refl.
  - destruct (Z.eqb_spec k k') as [->|Hne]; [discriminate|]. intros Hm.
    destruct (k <? k'); cbn.
    + now rewrite Z.eqb_refl.
    + destruct (Z.eqb_spec k k'); [contradiction | now apply IH].
Qed.

Lemma find_insert_other k k' (v : V) m :
  k' <> k -> StdMap.find k' (StdMap.insert k v m) = StdMap.find k' m.
Proof.
  intros Hne. induction m as [|[k0 v0] m IH]; cbn.
  - destruct (Z.eqb_spec k' k); [contradiction | reflexivity].
  - destruct (k <? k0); [|destruct (k =? k0)]; cbn.
    + destruct (Z.eqb_spec k' k); [contradiction | reflexivity].
    + reflexivity.
    + now rewrite IH.
Qed.

Lemma insert_keys k (v : V) m x :
  StdMap.find k m = None ->
  In x (StdMap.keys (StdMap.insert k v m)) <-> x = k \/ In x (StdMap.keys m).
Proof.
  induction m as [|[k' v'] m IH]; cbn.
  - intuition.
  - destruct (Z.eqb_spec k k') as [->|Hne]; [discriminate|]. intros Hm.
    destruct (k <? k'); cbn; [intuition|].
    rewrite (IH Hm). intuition.
Qed.

Lemma insert_length k (v : V) m :
  StdMap.find k m = None ->
  length (StdMap.insert k v m) = S (length m).
Proof.
  induction m as [|[k' v'] m IH]; cbn; [reflexivity|].
  destruct (Z.eqb_spec k k') as [->|Hne]; [discriminate|]. intros Hm.
  destruct (k <? k'); cbn; [reflexivity | now rewrite IH].
Qed.

Lemma erase_insert k (v : V) m :
  StdMap.find k m = None -> StdMap.erase k (StdMap.insert k v m) = m.
Proof.
  induction m as [|[k' v'] m IH]; cbn.
  - now rewrite Z.eqb_refl.
  - destruct (Z.eqb_spec k k') as [->|Hne]; [discriminate|]. intros Hm.
    destruct (k <? k'); cbn.
    + now rewrite Z.eqb_refl.
    + destruct (Z.eqb_spec k k'); [contradiction | now rewrite IH].
Qed.

Lemma insert_insert k1 k2 (v1 v2 : V) m :
  k1 <> k2 ->
  StdMap.insert k1 v1 (StdMap.insert k2 v2 m)
  = StdMap.insert k2 v2 (StdMap.insert k1 v1 m).
Proof.
  intros Hne. induction m as [|[k v] m IH]; cbn.
  - destruct (Z.ltb_spec k1 k2), (Z.ltb_spec k2 k1),
      (Z.eqb_spec k1 k2), (Z.eqb_spec k2 k1); try lia; reflexivity.
  - destruct (Z.ltb_spec k1 k), (Z.ltb_spec k2 k),
      (Z.eqb_spec k1 k), (Z.eqb_spec k2 k); cbn;
      repeat match goal with
             | |- context [?a <? ?b] => destruct (Z.ltb_spec a b); try lia
             | |- context [?a =? ?b] => destruct (Z.eqb_spec a b); try lia
             end;
      try reflexivity; try (now rewrite IH); try lia.
Qed.

Lemma find_erase_ascending k m :
  Digraph.ascending (StdMap.keys m) -> StdMap.find k (StdMap.erase k m) = None.
Proof.
  induction m as [|[k' v'] m IH]; cbn; [reflexivity|].
  intros [Hlt Hasc]. destruct (Z.eqb_spec k k') as [->|Hne]; cbn.
  - apply find_None_keys. intros Hin. specialize (Hlt _ Hin). lia.
  - destruct (Z.eqb_spec k k'); [contradiction | now apply IH].
Qed.

Lemma erase_In_other k m k' (v' : V) :
  k' <> k -> In (k', v') m -> In (k', v') (StdMap.erase k m).
Proof.
  intros Hne. induction m as [|[k0 v0] m IH]; cbn; [tauto|].
  destruct (Z.eqb_spec k k0) as [->|Hk].
  - intros [[= -> ->]|H]; [contradiction | assumption].
  - intros [H|H]; [now left | right; now apply IH].
Qed.

Lemma erase_In_key k m k' (v' : V) :
  Digraph.ascending (StdMap.keys m) ->
  In (k', v') (StdMap.erase k m) -> k' <> k.
Proof.
  intros Hasc Hin ->.
  apply (ascending_find _ _ _ (erase_ascending k m Hasc)) in Hin.
  rewrite (find_erase_ascending k m Hasc) in Hin. discriminate.
Qed.
End MapInsert.

(** ** Queries by vertex number *)

Section VertexQueries.
Context {VertexInfo EdgeInfo : Type}.
Implicit Types (g : Digraph.t VertexInfo EdgeInfo).

(** The three queries by vertex number only look the vertex up. *)
Lemma queries_follow_find g g' (v : Z) :
  StdMap.find v g' = StdMap.find v g ->
  Digraph.vertexInfo v g' = Digraph.vertexInfo v g
  /\ Digraph.edgesFrom v g' = Digraph.edgesFrom v g
  /\ Digraph.edgeCountOf v g' = Digraph.edgeCountOf v g.
Proof.
  intros H.
  unfold Digraph.vertexInfo, Digraph.edgesFrom, Digraph.edgeCountOf, StdMap.count.
  now rewrite H.
Qed.

Lemma edges_insert g (v : Z) (vi : VertexInfo) :
  Digraph.edges (StdMap.insert v (DigraphVertex.Build vi []) g)
  = Digraph.edges g.
Proof.
  unfold Digraph.edges. induction g as [|[k dv] g IH]; cbn; [reflexivity|].
  destruct (v <? k); [|destruct (v =? k)]; cbn; try reflexivity.
  now rewrite IH.
Qed.
End VertexQueries.

(** X7. [vertexInfo(v)], [edges(v)] and [edgeCount(v)] all return when [v]
    is a vertex, [edgeCount(v)] being the number of pairs of [edges(v)]
    (as an [int]); when [v] is not a vertex, each of them throws a
    [DigraphException] with reason "Invalid vertex". *)
Theorem vertex_queries_by_presence
        {VertexInfo EdgeInfo : Type} (g : Digraph.t VertexInfo EdgeInfo)
        (v : Z) :
  let invalid := DigraphException "Invalid vertex"%string in
  (In v (Digraph.vertices g) ->
   exists vi temp,
     Digraph.vertexInfo v g = Ok vi
     /\ Digraph.edgesFrom v g = Ok temp
     /\ Digraph.edgeCountOf v g = Ok (to_int (Z.of_nat (length temp))))
  /\ (~ In v (Digraph.vertices g) ->
      Digraph.vertexInfo v g = Throw invalid
      /\ Digraph.edgesFrom v g = Throw invalid
      /\ Digraph.edgeCountOf v g = Throw invalid).
Proof.
  intros invalid. split; intros Hv.
  - apply find_Some_keys in Hv.
    destruct (StdMap.find v g) as [dv|] eqn:Hf; [|contradiction].
    exists (DigraphVertex.vinfo dv),
      (map (fun it => (v, DigraphEdge.toVertex it)) (DigraphVertex.edges dv)).
    unfold Digraph.vertexInfo, Digraph.edgeCountOf.
    rewrite (edgesFrom_present _ _ _ Hf), (count_present _ _ _ Hf), Hf, length_map.
    auto.
  - apply find_None_keys in Hv.
    unfold Digraph.vertexInfo, Digraph.edgeCountOf.
    rewrite (edgesFrom_absent _ _ Hv), (count_absent _ _ Hv). auto.
Qed.

Lemma vertex_queries_by_presence_witness :
  (exists vi temp,
     Digraph.vertexInfo 1 Graphs.oneEdge = Ok vi
     /\ Digraph.edgesFrom 1 Graphs.oneEdge = Ok temp
     /\ Digraph.edgeCountOf 1 Graphs.oneEdge
        = Ok (to_int (Z.of_nat (length temp))))
  /\ Digraph.vertexInfo 3 Graphs.oneEdge
     = Throw (DigraphException "Invalid vertex"%string).
Proof.
  split.
  - apply (vertex_queries_by_presence Graphs.oneEdge 1). cbn. now left.
  - apply (vertex_queries_by_presence Graphs.oneEdge 3).
    cbn. intros [H|[H|[]]]; discriminate H.
Defined.

(** X8. [addVertex(v, vi)] with [v] not yet a vertex returns normally. In
    the graph it leaves, [vertexInfo(v)] returns [vi] and [edges(v)] is
    empty; [vertices()] is the old list plus [v], one longer; the queries
    on every other vertex number answer as before; [edges()] is
    unchanged. *)
Theorem addVertex_effect
        {VertexInfo EdgeInfo : Type} (g : Digraph.t VertexInfo EdgeInfo)
        (v : Z) (vi : VertexInfo) :
  ~ In v (Digraph.vertices g) ->
  exists g',
    Digraph.addVertex v vi g = Digraph.Done tt g'
    /\ Digraph.vertexInfo v g' = Ok vi
    /\ Digraph.edgesFrom v g' = Ok []
    /\ (forall x, In x (Digraph.vertices g') <-> x = v \/ In x (Digraph.vertices g))
    /\ length (Digraph.vertices g') = S (length (Digraph.vertices g))
    /\ (forall v', v' <> v ->
          Digraph.vertexInfo v' g' = Digraph.vertexInfo v' g
          /\ Digraph.edgesFrom v' g' = Digraph.edgesFrom v' g
          /\ Digraph.edgeCountOf v' g' = Digraph.edgeCountOf v' g)
    /\ Digraph.edges g' = Digraph.edges g.
Proof.
  intros Hv. apply find_None_keys in Hv.
  set (g' := StdMap.insert v (DigraphVertex.Build vi []) g).
  assert (Hf' : StdMap.find v g' = Some (DigraphVertex.Build vi []))
    by now apply find_insert.
  exists g'. split; [|split; [|split; [|split; [|split; [|split]]]]].
  - unfold Digraph.addVertex, Digraph.bind, Digraph.get.
    now rewrite (count_absent _ _ Hv).
  - unfold Digraph.vertexInfo. now rewrite (count_present _ _ _ Hf'), Hf'.
  - now rewrite (edgesFrom_present _ _ _ Hf').
  - intros x. now apply insert_keys.
  - unfold Digraph.vertices, StdMap.keys. rewrite !length_map.
    now apply insert_length.
  - intros v' Hne. apply queries_follow_find. now apply find_insert_other.
  - apply edges_insert.
Qed.

Lemma addVertex_effect_witness :
  exists g',
    Digraph.addVertex 3 tt Graphs.oneEdge = Digraph.Done tt g'
    /\ Digraph.vertexInfo 3 g' = Ok tt
    /\ Digraph.edgesFrom 3 g' = Ok []
    /\ (forall x, In x (Digraph.vertices g')
                  <-> x = 3 \/ In x (Digraph.vertices Graphs.oneEdge))
    /\ length (Digraph.vertices g') = S (length (Digraph.vertices Graphs.oneEdge))
    /\ (forall v', v' <> 3 ->
          Digraph.vertexInfo v' g' = Digraph.vertexInfo v' Graphs.oneEdge
          /\ Digraph.edgesFrom v' g' = Digraph.edgesFrom v' Graphs.oneEdge
          /\ Digraph.edgeCountOf v' g' = Digraph.edgeCountOf v' Graphs.oneEdge)
    /\ Digraph.edges g' = Digraph.edges Graphs.oneEdge.
Proof.
  apply (addVertex_effect Graphs.oneEdge 3 tt).
  cbn. intros [H|[H|[]]]; discriminate H.
Defined.

(** ** The effect of [addEdge] *)

Section AddEdge.
Context {VertexInfo EdgeInfo : Type}.
Implicit Types (g : Digraph.t VertexInfo EdgeInfo)
               (l : list (DigraphEdge.t EdgeInfo)).

Lemma count_update g (a x : Z) f :
  StdMap.count x (StdMap.update a f g) = StdMap.count x g.
Proof.
  unfold StdMap.count. destruct (Z.eq_dec x a) as [->|Hne].
  - rewrite find_update. now destruct (StdMap.find a g).
  - now rewrite find_update_other.
Qed.

Lemma find_app_miss (f : DigraphEdge.t EdgeInfo -> bool) l it :
  f it = false -> List.find f (l ++ [it]) = List.find f l.
Proof.
  intros Hit. induction l as [|x l IH]; cbn.
  - now rewrite Hit.
  - destruct (f x); [reflexivity | exact IH].
Qed.

Lemma found_app_miss (check : Z * Z) temp (q : Z * Z) :
  check <> q -> found check (temp ++ [q]) = found check temp.
Proof.
  intros Hne. unfold found. rewrite existsb_app. cbn.
  destruct (pair_eqb check q) eqn:E.
  - apply pair_eqb_eq in E. contradiction.
  - now rewrite !orb_false_r.
Qed.

Lemma edges_update_pushed g (a : Z) it dv :
  StdMap.find a g = Some dv ->
  forall q,
    In q (Digraph.edges (StdMap.update a (Digraph.pushed it) g))
    <-> q = (DigraphEdge.fromVertex it, DigraphEdge.toVertex it)
        \/ In q (Digraph.edges g).
Proof.
  unfold Digraph.edges.
  induction g as [|[k dv0] g IH]; cbn; [discriminate|].
  destruct (Z.eqb_spec a k) as [->|Hne]; intros Hf q; cbn.
  - rewrite map_app, !in_app_iff. cbn. intuition.
  - rewrite !in_app_iff, (IH Hf q). intuition.
Qed.

Lemma edgeInfo_found g (a b : Z) dv :
  StdMap.find a g = Some dv ->
  In b (Digraph.vertices g) ->
  Digraph.edgeInfo a b g
  = if existsb (fun it => DigraphEdge.toVertex it =? b) (DigraphVertex.edges dv)
    then match List.find (fun it => DigraphEdge.toVertex it =? b)
                         (DigraphVertex.edges dv) with
         | Some it => Ok (DigraphEdge.einfo it)
         | None => Undefined
         end
    else Throw (DigraphException "Invalid edge"%string).
Proof.
  intros Ha Hb. apply find_Some_keys in Hb.
  destruct (StdMap.find b g) as [dvb|] eqn:Hfb; [|contradiction].
  unfold Digraph.edgeInfo.
  rewrite (count_present _ _ _ Ha), (count_present _ _ _ Hfb). cbn [orb].
  rewrite (edgesFrom_present _ _ _ Ha), found_targets, Ha.
  now destruct (existsb _ (DigraphVertex.edges dv)).
Qed.
End AddEdge.

(** X9. The outcomes of [edgeInfo(a, b)]: when [a] and [b] are vertices
    and [edges(a)] contains the pair (a, b) it returns a payload; in every
    other case it throws a [DigraphException] with reason "Invalid edge".
    Control never reaches the end of the function without a [return]. *)
Theorem edgeInfo_outcomes
        {VertexInfo EdgeInfo : Type} (g : Digraph.t VertexInfo EdgeInfo)
        (a b : Z) :
  (In a (Digraph.vertices g) /\ In b (Digraph.vertices g)
   /\ Digraph.hasEdge a b g
   /\ exists p, Digraph.edgeInfo a b g = Ok p)
  \/ ((~ In a (Digraph.vertices g) \/ ~ In b (Digraph.vertices g)
       \/ ~ Digraph.hasEdge a b g)
      /\ Digraph.edgeInfo a b g
         = Throw (DigraphException "Invalid edge"%string)).
Proof.
  destruct (in_dec Z.eq_dec a (Digraph.vertices g)) as [Ha|Ha];
    [|right; split; [tauto | apply edgeInfo_rejected; tauto]].
  destruct (in_dec Z.eq_dec b (Digraph.vertices g)) as [Hb|Hb];
    [|right; split; [tauto | apply edgeInfo_rejected; tauto]].
  pose proof Ha as Hfa. apply find_Some_keys in Hfa.
  destruct (StdMap.find a g) as [dv|] eqn:Hf; [clear Hfa | contradiction].
  rewrite (edgeInfo_found g a b dv Hf Hb).
  destruct (existsb _ (DigraphVertex.edges dv)) eqn:Hex.
  - left. apply existsb_exists in Hex as [it [Hit Hto]].
    split; [assumption|]. split; [assumption|]. split.
    + apply hasEdge_stored. exists dv, it. apply Z.eqb_eq in Hto. auto.
    + destruct (List.find _ (DigraphVertex.edges dv)) as [it'|] eqn:Hfind.
      * now exists (DigraphEdge.einfo it').
      * apply (find_none _ _ Hfind) in Hit. congruence.
  - right. split; [|reflexivity]. right. right. intros He.
    apply hasEdge_stored in He as [dv' [it [Hf' [Hit Hto]]]].
    assert (dv' = dv) by congruence. subst dv'.
    assert (Htrue : existsb (fun it => DigraphEdge.toVertex it =? b)
                            (DigraphVertex.edges dv) = true).
    { apply existsb_exists. exists it. split; [assumption | now apply Z.eqb_eq]. }
    congruence.
Qed.

(** X10. [addEdge(a, b, p)] with [a] and [b] vertices and no edge from [a]
    to [b] returns normally. In the graph it leaves, [edgeInfo(a, b)]
    returns [p]; [edges(a)] is the old list with the pair (a, b) appended;
    [edges()] holds the old pairs and (a, b); [vertices()] and every
    [vertexInfo] are unchanged; [edgeInfo] on every other pair answers as
    before. *)
Theorem addEdge_effect
        {VertexInfo EdgeInfo : Type} (g : Digraph.t VertexInfo EdgeInfo)
        (a b : Z) (p : EdgeInfo) :
  In a (Digraph.vertices g) ->
  In b (Digraph.vertices g) ->
  ~ Digraph.hasEdge a b g ->
  exists g' temp,
    Digraph.addEdge a b p g = Digraph.Done tt g'
    /\ Digraph.edgeInfo a b g' = Ok p
    /\ Digraph.edgesFrom a g = Ok temp
    /\ Digraph.edgesFrom a g' = Ok (temp ++ [(a, b)])
    /\ (forall q, In q (Digraph.edges g') <-> q = (a, b) \/ In q (Digraph.edges g))
    /\ Digraph.vertices g' = Digraph.vertices g
    /\ (forall v, Digraph.vertexInfo v g' = Digraph.vertexInfo v g)
    /\ (forall a' b', (a', b') <> (a, b) ->
          Digraph.edgeInfo a' b' g' = Digraph.edgeInfo a' b' g).
Proof.
  intros Ha Hb He.
  pose proof Ha as Hfa. apply find_Some_keys in Hfa.
  destruct (StdMap.find a g) as [dv|] eqn:Hf; [clear Hfa | contradiction].
  set (new := DigraphEdge.Build a b p).
  set (g' := StdMap.update a (Digraph.pushed new) g).
  assert (Hf' : StdMap.find a g' = Some (Digraph.pushed new dv)).
  { unfold g'. now rewrite find_update, Hf. }
  assert (Hkeys : Digraph.vertices g' = Digraph.vertices g)
    by apply update_keys.
  assert (Hnone : forall it, In it (DigraphVertex.edges dv) ->
                             DigraphEdge.toVertex it <> b).
  { intros it Hit Hto. apply He, hasEdge_stored. now exists dv, it. }
  exists g', (map (fun it => (a, DigraphEdge.toVertex it))
                  (DigraphVertex.edges dv)).
  split; [|split; [|split; [|split; [|split; [|split; [|split]]]]]].
  - now apply (addEdge_accepted g a b p dv).
  - rewrite (edgeInfo_found g' a b _ Hf') by now rewrite Hkeys.
    cbn [Digraph.pushed DigraphVertex.edges].
    rewrite existsb_app. cbn. rewrite Z.eqb_refl, orb_true_r.
    now rewrite (find_first_target b (DigraphVertex.edges dv) new Hnone eq_refl).
  - now apply edgesFrom_present.
  - rewrite (edgesFrom_present _ _ _ Hf'). cbn. now rewrite map_app.
  - intros q. apply (edges_update_pushed g a new dv Hf q).
  - exact Hkeys.
  - intros v. unfold Digraph.vertexInfo, g'. rewrite count_update.
    destruct (Z.eq_dec v a) as [->|Hne].
    + rewrite find_update, Hf. reflexivity.
    + now rewrite find_update_other.
  - intros a' b' Hne. destruct (Z.eq_dec a' a) as [->|Hna].
    + destruct (in_dec Z.eq_dec b' (Digraph.vertices g)) as [Hb'|Hb'].
      * rewrite (edgeInfo_found g' a b' _ Hf') by now rewrite Hkeys.
        rewrite (edgeInfo_found g a b' _ Hf Hb').
        assert (Hmiss : (b =? b') = false).
        { apply Z.eqb_neq. intros ->. now apply Hne. }
        cbn [Digraph.pushed DigraphVertex.edges].
        rewrite existsb_app,
          (find_app_miss (fun it => DigraphEdge.toVertex it =? b') _ new Hmiss).
        cbn. now rewrite Hmiss, !orb_false_r.
      * rewrite !edgeInfo_rejected; [reflexivity | tauto |].
        rewrite Hkeys. tauto.
    + unfold Digraph.edgeInfo, Digraph.edgesFrom, g'.
      now rewrite !count_update, (find_update_other a a' _ g Hna).
Qed.

Lemma addEdge_effect_witness :
  exists g' temp,
    Digraph.addEdge 2 1 tt Graphs.oneEdge = Digraph.Done tt g'
    /\ Digraph.edgeInfo 2 1 g' = Ok tt
    /\ Digraph.edgesFrom 2 Graphs.oneEdge = Ok temp
    /\ Digraph.edgesFrom 2 g' = Ok (temp ++ [(2, 1)])
    /\ (forall q, In q (Digraph.edges g')
                  <-> q = (2, 1) \/ In q (Digraph.edges Graphs.oneEdge))
    /\ Digraph.vertices g' = Digraph.vertices Graphs.oneEdge
    /\ (forall v, Digraph.vertexInfo v g' = Digraph.vertexInfo v Graphs.oneEdge)
    /\ (forall a' b', (a', b') <> (2, 1) ->
          Digraph.edgeInfo a' b' g' = Digraph.edgeInfo a' b' Graphs.oneEdge).
Proof.
  apply (addEdge_effect Graphs.oneEdge 2 1 tt).
  - cbn. right. now left.
  - cbn. now left.
  - intros [temp [Hq Hin]]. cbv in Hq. injection Hq as <-. destruct Hin.
Defined.

(** ** What the public calls maintain *)

Section Maintained.
Context {VertexInfo EdgeInfo : Type}.
Implicit Types (g : Digraph.t VertexInfo EdgeInfo)
               (c : Digraph.mutation VertexInfo EdgeInfo).

Lemma insert_keys_mono {V : Type} (k x : Z) (v : V) (m : StdMap.t V) :
  In x (StdMap.keys m) -> In x (StdMap.keys (StdMap.insert k v m)).
Proof.
  induction m as [|[k' v'] m IH]; cbn; [tauto|].
  destruct (k <? k'); [|destruct (k =? k')]; cbn; intuition.
Qed.

Lemma erase_keys_other {V : Type} (k x : Z) (m : StdMap.t V) :
  x <> k -> In x (StdMap.keys m) -> In x (StdMap.keys (StdMap.erase k m)).
Proof.
  intros Hne Hin. apply in_map_iff in Hin as [[x' v] [Hx Hin]].
  cbn in Hx. subst x'. apply in_map_iff. exists (x, v).
  split; [reflexivity | now apply erase_In_other].
Qed.

Lemma find_erase_other {V : Type} (k x : Z) (m : StdMap.t V) :
  x <> k -> StdMap.find x (StdMap.erase k m) = StdMap.find x m.
Proof.
  intros Hne. induction m as [|[k' v'] m IH]; cbn; [reflexivity|].
  destruct (Z.eqb_spec k k') as [->|Hk]; cbn.
  - destruct (Z.eqb_spec x k'); [contradiction | reflexivity].
  - now rewrite IH.
Qed.

Lemma ascending_NoDup (l : list Z) : Digraph.ascending l -> NoDup l.
Proof.
  induction l as [|k l IH]; cbn; [constructor|].
  intros [Hlt Hasc]. constructor; [|now apply IH].
  intros Hin. specialize (Hlt k Hin). lia.
Qed.

Lemma addEdge_Done_target g a b (ei : EdgeInfo) u g' :
  Digraph.addEdge a b ei g = Digraph.Done u g' -> In b (Digraph.vertices g).
Proof.
  unfold Digraph.addEdge, Digraph.bind, Digraph.get, Digraph.throw.
  destruct (StdMap.count a g =? 0); [discriminate|]. cbn [orb].
  destruct (StdMap.count b g =? 0) eqn:Hb; [discriminate|]. intros _.
  apply find_Some_keys. intros Hn. now rewrite (count_absent _ _ Hn) in Hb.
Qed.

Lemma removeVertex_Done_clean g v u g' :
  Digraph.removeVertex v g = Digraph.Done u g' ->
  existsb
    (fun iter : Z * DigraphVertex.t VertexInfo EdgeInfo =>
       existsb (fun it => DigraphEdge.toVertex it =? v)
               (DigraphVertex.edges (snd iter)))
    (StdMap.erase v g) = false.
Proof.
  unfold Digraph.removeVertex, Digraph.bind, Digraph.get, Digraph.put,
    Digraph.throw, Digraph.undefined.
  destruct (StdMap.count v g =? 0); [discriminate|].
  rewrite removeIncoming_spec.
  now destruct (existsb _ (StdMap.erase v g)).
Qed.

(** No entry that the scan of [removeVertex] passes has an edge to [v]. *)
Lemma clean_no_target (m : Digraph.t VertexInfo EdgeInfo) (v k : Z) dv it :
  existsb
    (fun iter : Z * DigraphVertex.t VertexInfo EdgeInfo =>
       existsb (fun it => DigraphEdge.toVertex it =? v)
               (DigraphVertex.edges (snd iter)))
    m = false ->
  In (k, dv) m -> In it (DigraphVertex.edges dv) ->
  DigraphEdge.toVertex it <> v.
Proof.
  intros Hclean Hk Hit Hto.
  assert (Htrue : existsb
    (fun iter : Z * DigraphVertex.t VertexInfo EdgeInfo =>
       existsb (fun it => DigraphEdge.toVertex it =? v)
               (DigraphVertex.edges (snd iter))) m = true).
  { apply existsb_exists. exists (k, dv). split; [assumption|].
    apply existsb_exists. exists it. split; [assumption | now apply Z.eqb_eq]. }
  congruence.
Qed.

Lemma perform_endpointsPresent g c u g' :
  Digraph.endpointsPresent g ->
  Digraph.perform c g = Digraph.Done u g' ->
  Digraph.endpointsPresent g'.
Proof.
  intros Hend. destruct c as [v vi|a b ei|v|a b]; cbn [Digraph.perform];
    intros Hdone k dv it Hk Hit.
  - apply addVertex_Done in Hdone as ->.
    apply insert_In in Hk as [[= -> ->]|Hk]; [destruct Hit|].
    apply insert_keys_mono. now apply (Hend k dv it).
  - pose proof (addEdge_Done_target _ _ _ _ _ _ Hdone) as Hb.
    apply addEdge_Done in Hdone as [dv0 [Ha [_ ->]]].
    unfold Digraph.vertices. rewrite update_keys.
    apply update_In_inv in Hk as [Hk|[-> [dv1 [Hk ->]]]].
    + now apply (Hend k dv it).
    + cbn in Hit. apply in_app_or in Hit as [Hit|[<-|[]]];
        [now apply (Hend a dv1 it) | exact Hb].
  - pose proof (removeVertex_Done_clean _ _ _ _ Hdone) as Hclean.
    apply removeVertex_Done in Hdone as ->.
    apply erase_In in Hk.
    apply erase_keys_other, erase_keys_other.
    + now apply (clean_no_target _ v k dv it Hclean).
    + now apply (clean_no_target _ v k dv it Hclean).
    + apply erase_In in Hk. now apply (Hend k dv it).
  - now apply removeEdge_never_Done in Hdone.
Qed.

Lemma performAll_maintains (cs : list (Digraph.mutation VertexInfo EdgeInfo)) :
  forall g u g',
    Digraph.wellFormed g -> Digraph.endpointsPresent g ->
    Digraph.performAll cs g = Digraph.Done u g' ->
    Digraph.wellFormed g' /\ Digraph.endpointsPresent g'.
Proof.
  induction cs as [|c cs IH]; intros g u g' Hwf Hend; cbn [Digraph.performAll].
  - unfold Digraph.ret. intros [= _ <-]. now split.
  - unfold Digraph.bind.
    destruct (Digraph.perform c g) as [u1 g1| |] eqn:Hc; try discriminate.
    apply IH.
    + now apply (perform_wellFormed g c u1 g1).
    + now apply (perform_endpointsPresent g c u1 g1).
Qed.

Lemma built_maintained g :
  Digraph.built g -> Digraph.wellFormed g /\ Digraph.endpointsPresent g.
Proof.
  intros [cs Hcs].
  apply (performAll_maintains cs Digraph.empty tt g);
    [apply wellFormed_empty | intros ? ? ? [] | exact Hcs].
Qed.

Lemma wellFormed_tail k dv g :
  Digraph.wellFormed ((k, dv) :: g) -> Digraph.wellFormed g.
Proof.
  intros [[_ Hasc] Hst]. split; [exact Hasc|].
  intros k' dv' Hin. apply Hst. now right.
Qed.

Lemma edges_stored g (q : Z * Z) :
  In q (Digraph.edges g)
  <-> exists k dv it,
        In (k, dv) g /\ In it (DigraphVertex.edges dv)
        /\ q = (DigraphEdge.fromVertex it, DigraphEdge.toVertex it).
Proof.
  unfold Digraph.edges. rewrite in_flat_map. split.
  - intros [[k dv] [Hk Hq]]. cbn [snd] in Hq.
    apply in_map_iff in Hq as [it [<- Hit]]. now exists k, dv, it.
  - intros [k [dv [it [Hk [Hit ->]]]]]. exists (k, dv). split; [assumption|].
    cbn [snd]. apply in_map_iff. now exists it.
Qed.

Lemma NoDup_map_paired {A : Type} (f h : A -> Z) (l : list A) :
  NoDup (map f l) -> NoDup (map (fun x => (h x, f x)) l).
Proof.
  induction l as [|x l IH]; cbn; [constructor|].
  intros Hnd. inversion Hnd as [|? ? Hnotin Hnd']; subst.
  constructor; [|now apply IH].
  intros Hin. apply Hnotin. apply in_map_iff in Hin as [y [[= _ Hy] Hin]].
  rewrite <- Hy. now apply in_map.
Qed.

Lemma wellFormed_NoDup_edges g : Digraph.wellFormed g -> NoDup (Digraph.edges g).
Proof.
  induction g as [|[k dv] g IH]; intros Hwf; [constructor|].
  pose proof (wellFormed_tail _ _ _ Hwf) as Hwf'.
  destruct Hwf as [[Hlt _] Hst].
  destruct (Hst k dv (or_introl eq_refl)) as [Hown Hnd].
  change (Digraph.edges ((k, dv) :: g))
    with (map (fun it => (DigraphEdge.fromVertex it, DigraphEdge.toVertex it))
              (DigraphVertex.edges dv) ++ Digraph.edges g).
  apply NoDup_app; [now apply NoDup_map_paired | now apply IH |].
  intros q Hq Hq'. apply in_map_iff in Hq as [it [<- Hit]].
  apply edges_stored in Hq' as [k' [dv' [it' [Hk' [Hit' [= Hfrom _]]]]]].
  destruct (Hst k' dv' (or_intror Hk')) as [Hown' _].
  rewrite (Hown it Hit), (Hown' it' Hit') in Hfrom. subst k'.
  assert (k < k) by (apply Hlt, in_map_iff; now exists (k, dv')). lia.
Qed.
End Maintained.

(** X11. On every graph that public calls build from the empty graph:
    [vertices()] is in strictly ascending order, so without repetition;
    [edges()] holds no pair twice; and both endpoints of every pair of
    [edges()] are in [vertices()]. *)
Theorem built_graph_invariants
        {VertexInfo EdgeInfo : Type} (g : Digraph.t VertexInfo EdgeInfo) :
  Digraph.built g ->
  Digraph.ascending (Digraph.vertices g)
  /\ NoDup (Digraph.vertices g)
  /\ NoDup (Digraph.edges g)
  /\ forall a b, In (a, b) (Digraph.edges g) ->
                 In a (Digraph.vertices g) /\ In b (Digraph.vertices g).
Proof.
  intros Hb. destruct (built_maintained g Hb) as [Hwf Hend].
  split; [apply Hwf|]. split; [apply ascending_NoDup, Hwf|].
  split; [now apply wellFormed_NoDup_edges|].
  intros a b Hin.
  apply edges_stored in Hin as [k [dv [it [Hk [Hit [= -> ->]]]]]].
  split; [|now apply (Hend k dv it)].
  destruct Hwf as [_ Hst]. destruct (Hst k dv Hk) as [Hown _].
  rewrite (Hown it Hit). apply in_map_iff. now exists (k, dv).
Qed.

Lemma built_graph_invariants_witness :
  Digraph.ascending (Digraph.vertices (Graphs.cycle 3))
  /\ NoDup (Digraph.vertices (Graphs.cycle 3))
  /\ NoDup (Digraph.edges (Graphs.cycle 3))
  /\ forall a b, In (a, b) (Digraph.edges (Graphs.cycle 3)) ->
                 In a (Digraph.vertices (Graphs.cycle 3))
                 /\ In b (Digraph.vertices (Graphs.cycle 3)).
Proof.
  apply (built_graph_invariants (Graphs.cycle 3)).
  exists (Graphs.cycleCalls 3 0). reflexivity.
Defined.

(** X12. Whenever [removeVertex(v)] returns normally on a graph built by
    public calls, the graph it leaves is the old one without [v]:
    [vertices()] has lost exactly [v], [edges()] has lost exactly the
    pairs that mention [v], and the queries on every other vertex number
    answer as before. *)
Theorem removeVertex_returns_postcondition
        {VertexInfo EdgeInfo : Type} (g g' : Digraph.t VertexInfo EdgeInfo)
        (v : Z) :
  Digraph.built g ->
  Digraph.removeVertex v g = Digraph.Done tt g' ->
  (forall x, In x (Digraph.vertices g') <-> In x (Digraph.vertices g) /\ x <> v)
  /\ (forall a b, In (a, b) (Digraph.edges g')
                  <-> In (a, b) (Digraph.edges g) /\ a <> v /\ b <> v)
  /\ (forall v', v' <> v ->
        Digraph.vertexInfo v' g' = Digraph.vertexInfo v' g
        /\ Digraph.edgesFrom v' g' = Digraph.edgesFrom v' g
        /\ Digraph.edgeCountOf v' g' = Digraph.edgeCountOf v' g).
Proof.
  intros Hb Hdone. destruct (built_maintained g Hb) as [[Hasc Hst] _].
  pose proof (removeVertex_Done_clean _ _ _ _ Hdone) as Hclean.
  apply removeVertex_Done in Hdone.
  rewrite (erase_absent v (StdMap.erase v g) (find_erase_ascending v g Hasc))
    in Hdone.
  subst g'.
  assert (Hentries : forall k dv,
             In (k, dv) (StdMap.erase v g) <-> In (k, dv) g /\ k <> v).
  { intros k dv. split.
    - intros Hin. split; [now apply erase_In in Hin|].
      now apply (erase_In_key v g k dv Hasc).
    - intros [Hin Hne]. now apply erase_In_other. }
  split; [|split].
  - intros x. unfold Digraph.vertices, StdMap.keys. rewrite !in_map_iff. split.
    + intros [[k dv] [Hx Hin]]. cbn in Hx. subst k.
      apply Hentries in Hin as [Hin Hne]. split; [|assumption].
      now exists (x, dv).
    + intros [[[k dv] [Hx Hin]] Hne]. cbn in Hx. subst k.
      exists (x, dv). split; [reflexivity|]. now apply Hentries.
  - intros a b. rewrite !edges_stored. split.
    + intros [k [dv [it [Hk [Hit [= -> ->]]]]]].
      pose proof (clean_no_target _ v k dv it Hclean Hk Hit) as Hto.
      apply Hentries in Hk as [Hk Hne].
      destruct (Hst k dv Hk) as [Hown _].
      split; [now exists k, dv, it|]. split; [|assumption].
      now rewrite (Hown it Hit).
    + intros [[k [dv [it [Hk [Hit [= -> ->]]]]]] [Hfrom _]].
      destruct (Hst k dv Hk) as [Hown _]. rewrite (Hown it Hit) in Hfrom.
      exists k, dv, it. split; [|now split]. now apply Hentries.
  - intros v' Hne. apply queries_follow_find. now apply find_erase_other.
Qed.

Lemma removeVertex_returns_postcondition_witness :
  (forall x, In x (Digraph.vertices (@Graphs.single unit unit 2 tt))
             <-> In x (Digraph.vertices Graphs.oneEdge) /\ x <> 1)
  /\ (forall a b, In (a, b) (Digraph.edges (@Graphs.single unit unit 2 tt))
                  <-> In (a, b) (Digraph.edges Graphs.oneEdge)
                      /\ a <> 1 /\ b <> 1)
  /\ (forall v', v' <> 1 ->
        Digraph.vertexInfo v' (@Graphs.single unit unit 2 tt)
        = Digraph.vertexInfo v' Graphs.oneEdge
        /\ Digraph.edgesFrom v' (@Graphs.single unit unit 2 tt)
           = Digraph.edgesFrom v' Graphs.oneEdge
        /\ Digraph.edgeCountOf v' (@Graphs.single unit unit 2 tt)
           = Digraph.edgeCountOf v' Graphs.oneEdge).
Proof.
  apply (removeVertex_returns_postcondition Graphs.oneEdge
           (@Graphs.single unit unit 2 tt) 1).
  - exists [Digraph.AddVertex 1 tt; Digraph.AddVertex 2 tt;
            Digraph.AddEdge 1 2 tt].
    reflexivity.
  - reflexivity.
Defined.

(** X13. On a graph built by public calls, adding a vertex number that is
    not in use and removing it again gives back the very same graph. *)
Theorem addVertex_removeVertex_restores
        {VertexInfo EdgeInfo : Type} (g : Digraph.t VertexInfo EdgeInfo)
        (v : Z) (vi : VertexInfo) :
  Digraph.built g ->
  ~ In v (Digraph.vertices g) ->
  Digraph.performAll [Digraph.AddVertex v vi; Digraph.RemoveVertex v] g
  = Digraph.Done tt g.
Proof.
  intros Hb Hv. destruct (built_maintained g Hb) as [_ Hend].
  pose proof Hv as Hf. apply find_None_keys in Hf.
  set (g1 := StdMap.insert v (DigraphVertex.Build vi []) g).
  assert (Hadd : Digraph.addVertex v vi g = Digraph.Done tt g1).
  { unfold Digraph.addVertex, Digraph.bind, Digraph.get.
    now rewrite (count_absent _ _ Hf). }
  cbn [Digraph.performAll Digraph.perform]. unfold Digraph.bind at 1.
  rewrite Hadd. unfold Digraph.bind, Digraph.ret.
  rewrite (removeVertex_present g1 v)
    by (apply (insert_keys v _ g v Hf); now left).
  unfold g1. rewrite (erase_insert v _ g Hf), (erase_absent v g Hf).
  destruct (existsb _ g) eqn:Hex; [|reflexivity].
  apply existsb_exists in Hex as [[k dv] [Hk Hex]]. cbn [snd] in Hex.
  apply existsb_exists in Hex as [it [Hit Hto]]. apply Z.eqb_eq in Hto.
  exfalso. apply Hv. rewrite <- Hto. now apply (Hend k dv it).
Qed.

Lemma addVertex_removeVertex_restores_witness :
  Digraph.performAll [Digraph.AddVertex 3 tt; Digraph.RemoveVertex 3]
                     Graphs.oneEdge
  = Digraph.Done tt Graphs.oneEdge.
Proof.
  apply (addVertex_removeVertex_restores Graphs.oneEdge 3 tt).
  - exists [Digraph.AddVertex 1 tt; Digraph.AddVertex 2 tt;
            Digraph.AddEdge 1 2 tt].
    reflexivity.
  - cbn. intros [H|[H|[]]]; discriminate H.
Defined.

(** X14. The order in which two new vertices are added does not matter:
    for distinct vertex numbers that are not in use, [addVertex(v1, _)]
    followed by [addVertex(v2, _)] and the two calls the other way round
    both return and leave the same graph. *)
Theorem addVertex_order_irrelevant
        {VertexInfo EdgeInfo : Type} (g : Digraph.t VertexInfo EdgeInfo)
        (v1 v2 : Z) (vi1 vi2 : VertexInfo) :
  v1 <> v2 ->
  ~ In v1 (Digraph.vertices g) ->
  ~ In v2 (Digraph.vertices g) ->
  exists g',
    Digraph.performAll [Digraph.AddVertex v1 vi1; Digraph.AddVertex v2 vi2] g
    = Digraph.Done tt g'
    /\ Digraph.performAll [Digraph.AddVertex v2 vi2; Digraph.AddVertex v1 vi1] g
       = Digraph.Done tt g'.
Proof.
  intros Hne H1 H2. apply find_None_keys in H1, H2.
  exists (StdMap.insert v2 (DigraphVertex.Build vi2 [])
            (StdMap.insert v1 (DigraphVertex.Build vi1 []) g)).
  cbn [Digraph.performAll Digraph.perform].
  unfold Digraph.addVertex, Digraph.bind, Digraph.get, Digraph.put, Digraph.ret.
  rewrite (count_absent _ _ H1), (count_absent _ _ H2). cbn [negb].
  assert (H21 : StdMap.find v2 (StdMap.insert v1 (DigraphVertex.Build vi1 []) g)
                = None)
    by (rewrite find_insert_other; [assumption | congruence]).
  assert (H12 : StdMap.find v1 (StdMap.insert v2 (DigraphVertex.Build vi2 []) g)
                = None)
    by (rewrite find_insert_other; [assumption | congruence]).
  rewrite (count_absent _ _ H21), (count_absent _ _ H12). cbn [negb].
  split; [reflexivity|]. now rewrite insert_insert.
Qed.

Lemma addVertex_order_irrelevant_witness :
  exists g',
    Digraph.performAll [Digraph.AddVertex 7 tt; Digraph.AddVertex 3 tt]
                       Graphs.oneEdge
    = Digraph.Done tt g'
    /\ Digraph.performAll [Digraph.AddVertex 3 tt; Digraph.AddVertex 7 tt]
                          Graphs.oneEdge
       = Digraph.Done tt g'.
Proof.
  apply (addVertex_order_irrelevant Graphs.oneEdge 7 3 tt tt).
  - discriminate.
  - cbn. intros [H|[H|[]]]; discriminate H.
  - cbn. intros [H|[H|[]]]; discriminate H.
Defined.

(** ** The selection step of the shortest-path loop *)

Section Selection.
Implicit Types (shortestDist : StdMap.t float) (vertices : list Z).

Lemma findMinimumFrom_none vertices shortestDist minVal minVert :
  (forall v, In v vertices ->
             exists d, StdMap.find v shortestDist = Some d
                       /\ PrimFloat.ltb d minVal = false) ->
  Digraph.findMinimumFrom vertices shortestDist minVal minVert = Ok minVert.
Proof.
  induction vertices as [|v vertices IH]; intros Hall; cbn; [reflexivity|].
  destruct (Hall v (or_introl eq_refl)) as [d [Hd Hlt]]. rewrite Hd, Hlt.
  apply IH. intros v' Hv'. apply Hall. now right.
Qed.

(** Once the loop holds a candidate taken from the list, what it returns
    is taken from the list and no longer depends on the initial value. *)
Lemma findMinimumFrom_member vertices shortestDist :
  (forall v, In v vertices -> exists d, StdMap.find v shortestDist = Some d) ->
  forall minVal minVert,
    exists r, Digraph.findMinimumFrom vertices shortestDist minVal minVert = Ok r
              /\ (r = minVert \/ In r vertices).
Proof.
  induction vertices as [|v vertices IH]; intros Hall minVal minVert; cbn.
  - exists minVert. auto.
  - destruct (Hall v (or_introl eq_refl)) as [d Hd]. rewrite Hd.
    assert (Hall' : forall v', In v' vertices ->
                               exists d, StdMap.find v' shortestDist = Some d)
      by (intros v' Hv'; apply Hall; now right).
    destruct (PrimFloat.ltb d minVal).
    + destruct (IH Hall' d v) as [r [Hr Hin]]. exists r. intuition.
    + destruct (IH Hall' minVal minVert) as [r [Hr Hin]]. exists r. intuition.
Qed.

Lemma findMinimumFrom_some vertices shortestDist :
  (forall v, In v vertices -> exists d, StdMap.find v shortestDist = Some d) ->
  forall minVal,
    (exists v d, In v vertices /\ StdMap.find v shortestDist = Some d
                 /\ PrimFloat.ltb d minVal = true) ->
    exists r, In r vertices
              /\ forall minVert,
                   Digraph.findMinimumFrom vertices shortestDist minVal minVert
                   = Ok r.
Proof.
  induction vertices as [|v vertices IH]; intros Hall minVal [x [dx [Hx [Hdx Hlt]]]];
    [destruct Hx|].
  assert (Hall' : forall v', In v' vertices ->
                             exists d, StdMap.find v' shortestDist = Some d)
    by (intros v' Hv'; apply Hall; now right).
  destruct (Hall v (or_introl eq_refl)) as [d Hd].
  cbn [Digraph.findMinimumFrom]. rewrite Hd.
  destruct (PrimFloat.ltb d minVal) eqn:Hv.
  - destruct (findMinimumFrom_member vertices shortestDist Hall' d v)
      as [r [Hr Hin]].
    exists r. split; [|intros _; exact Hr].
    destruct Hin as [->|Hin]; [now left | now right].
  - destruct Hx as [->|Hx]; [congruence|].
    destruct (IH Hall' minVal) as [r [Hin Hr]]; [now exists x, dx|].
    exists r. split; [now right | exact Hr].
Qed.
End Selection.

(** X15. [findMinimum] on a list of vertices that all have a distance:
    when none of these distances is below 8000000000000 it returns the
    value its uninitialised local [minVert] happens to hold; when one of
    them is, it returns a vertex of the list, the same whatever that
    initial value is. *)
Theorem findMinimum_outcomes
        (vertices : list Z) (shortestDist : StdMap.t float) :
  (forall v, In v vertices -> exists d, StdMap.find v shortestDist = Some d) ->
  ((forall v d, In v vertices -> StdMap.find v shortestDist = Some d ->
                PrimFloat.ltb d 8000000000000%float = false)
   /\ forall minVert0,
        Digraph.findMinimum minVert0 vertices shortestDist = Ok minVert0)
  \/ ((exists v d, In v vertices /\ StdMap.find v shortestDist = Some d
                   /\ PrimFloat.ltb d 8000000000000%float = true)
      /\ exists r, In r vertices
                   /\ forall minVert0,
                        Digraph.findMinimum minVert0 vertices shortestDist
                        = Ok r).
Proof.
  intros Hall.
  assert (Hdec :
    (forall v d, In v vertices -> StdMap.find v shortestDist = Some d ->
                 PrimFloat.ltb d 8000000000000%float = false)
    \/ (exists v d, In v vertices /\ StdMap.find v shortestDist = Some d
                    /\ PrimFloat.ltb d 8000000000000%float = true)).
  { clear Hall. induction vertices as [|v vertices IH].
    - left. intros ? ? [].
    - destruct (StdMap.find v shortestDist) as [d|] eqn:Hd.
      + destruct (PrimFloat.ltb d 8000000000000%float) eqn:Hlt.
        * right. exists v, d. split; [now left | now split].
        * destruct IH as [IH|[x [dx [Hx Hrest]]]].
          -- left. intros v' d' [<-|Hv'] Hd'; [congruence | now apply (IH v')].
          -- right. exists x, dx. split; [now right | assumption].
      + destruct IH as [IH|[x [dx [Hx Hrest]]]].
        * left. intros v' d' [<-|Hv'] Hd'; [congruence | now apply (IH v')].
        * right. exists x, dx. split; [now right | assumption]. }
  destruct Hdec as [Hnone|Hsome]; [left | right]; split; try assumption.
  - intros minVert0. apply findMinimumFrom_none.
    intros v Hv. destruct (Hall v Hv) as [d Hd]. exists d.
    split; [assumption | now apply (Hnone v)].
  - now apply findMinimumFrom_some.
Qed.

Lemma findMinimum_outcomes_witness :
  ((forall v d, In v [2] -> StdMap.find v Graphs.twoIsolatedDist = Some d ->
                PrimFloat.ltb d 8000000000000%float = false)
   /\ forall minVert0,
        Digraph.findMinimum minVert0 [2] Graphs.twoIsolatedDist = Ok minVert0)
  \/ ((exists v d, In v [2] /\ StdMap.find v Graphs.twoIsolatedDist = Some d
                   /\ PrimFloat.ltb d 8000000000000%float = true)
      /\ exists r, In r [2]
                   /\ forall minVert0,
                        Digraph.findMinimum minVert0 [2] Graphs.twoIsolatedDist
                        = Ok r).
Proof.
  apply (findMinimum_outcomes [2] Graphs.twoIsolatedDist).
  intros v [<-|[]]. now exists 80000000000000%float.
Defined.

(** ** What the predecessor map records *)

Section Recorded.
Context {VertexInfo EdgeInfo : Type}.
Context (weightFn : EdgeInfo -> float).
Implicit Types (g : Digraph.t VertexInfo EdgeInfo)
               (l : list (DigraphEdge.t EdgeInfo))
               (shortestPath : StdMap.t Z).

Lemma assign_In {V : Type} (k : Z) (v : V) (m : StdMap.t V) p :
  In p (StdMap.assign k v m) -> p = (k, v) \/ In p m.
Proof.
  induction m as [|[k' v'] m IH]; cbn.
  - intros [H|[]]. now left.
  - destruct (k <? k'); [|destruct (k =? k')]; cbn.
    + intros [H|H]; auto.
    + intros [H|H]; auto.
    + intros [H|H]; auto. apply IH in H as [H|H]; auto.
Qed.

Lemma find_assign {V : Type} (k : Z) (v : V) (m : StdMap.t V) :
  StdMap.find k (StdMap.assign k v m) = Some v.
Proof.
  induction m as [|[k' v'] m IH]; cbn.
  - now rewrite Z.eqb_refl.
  - destruct (k <? k'); [|destruct (Z.eqb_spec k k') as [->|Hne]]; cbn.
    + now rewrite Z.eqb_refl.
    + now rewrite Z.eqb_refl.
    + destruct (Z.eqb_spec k k'); [contradiction | exact IH].
Qed.

Lemma find_assign_other {V : Type} (k k' : Z) (v : V) (m : StdMap.t V) :
  k' <> k -> StdMap.find k' (StdMap.assign k v m) = StdMap.find k' m.
Proof.
  intros Hne. induction m as [|[k0 v0] m IH]; cbn.
  - destruct (Z.eqb_spec k' k); [contradiction | reflexivity].
  - destruct (k <? k0); [|destruct (Z.eqb_spec k k0) as [->|Hk]]; cbn.
    + destruct (Z.eqb_spec k' k); [contradiction | reflexivity].
    + destruct (Z.eqb_spec k' k0); [contradiction | reflexivity].
    + now rewrite IH.
Qed.

(** Relaxing edges stored with [current] only records [current] as the
    predecessor of targets of those edges. *)
Lemma relax_records current l : forall shortestDist shortestPath q,
  In q (snd (Digraph.relax weightFn current l shortestDist shortestPath)) ->
  In q shortestPath
  \/ exists it, In it l /\ q = (DigraphEdge.toVertex it, current).
Proof.
  induction l as [|it l IH]; intros sd sp q; cbn [Digraph.relax].
  - cbn. auto.
  - destruct (StdMap.index 0%float current sd) as [dcur sd1].
    destruct (StdMap.index 0%float (DigraphEdge.toVertex it) sd1) as [dto sd2].
    destruct (PrimFloat.ltb _ dto); intros H; apply IH in H as [H|[it' [Hit' Hq]]].
    + apply assign_In in H as [H|H]; [right | now left].
      exists it. split; [now left | assumption].
    + right. exists it'. split; [now right | assumption].
    + now left.
    + right. exists it'. split; [now right | assumption].
Qed.

Lemma settle_records g minVerts fuel :
  forall i unvisited shortestDist shortestPath result q,
    Digraph.settle fuel minVerts i weightFn g unvisited
                   shortestDist shortestPath = Ok result ->
    In q result ->
    In q shortestPath \/ Digraph.hasEdge (snd q) (fst q) g.
Proof.
  induction fuel as [|fuel IH]; intros i unvisited sd sp result q;
    destruct unvisited as [|u unvisited]; cbn [Digraph.settle];
    try discriminate; try (intros [= <-]; now left).
  destruct (Digraph.findMinimum _ _ _) as [current| | |]; try discriminate.
  destruct (StdMap.find current g) as [dv|] eqn:Hf; try discriminate.
  pose proof (relax_records current (DigraphVertex.edges dv) sd sp q) as Hr.
  destruct (Digraph.relax _ _ _ _ _) as [sd' sp']. cbn [snd] in Hr.
  intros Hs Hq. destruct (IH _ _ _ _ _ _ Hs Hq) as [H|H]; [|now right].
  destruct (Hr H) as [H'|[it [Hit ->]]]; [now left | right].
  cbn [fst snd]. apply hasEdge_stored. now exists dv, it.
Qed.

Lemma findShortestPaths_records g minVerts fuel startVertex result (k p : Z) :
  Digraph.findShortestPaths fuel minVerts startVertex weightFn g = Ok result ->
  In (k, p) result ->
  (k = startVertex /\ p = startVertex) \/ Digraph.hasEdge p k g.
Proof.
  unfold Digraph.findShortestPaths. intros Hs Hin.
  destruct (settle_records g minVerts fuel _ _ _ _ _ _ Hs Hin)
    as [H|H]; [left | now right].
  cbn in H. destruct H as [[= <- <-]|[]]. now split.
Qed.
End Recorded.

(** X16. Whenever [findShortestPaths] returns, every entry (k, p) of the
    returned map is the initial entry (start, start) or records an edge of
    the graph: [edges(p)] contains the pair (p, k). *)
Theorem findShortestPaths_records_edges
        {VertexInfo EdgeInfo : Type} (weightFn : EdgeInfo -> float)
        (g : Digraph.t VertexInfo EdgeInfo) (minVerts : nat -> Z)
        (fuel : nat) (startVertex : Z) (result : StdMap.t Z) (k p : Z) :
  Digraph.findShortestPaths fuel minVerts startVertex weightFn g = Ok result ->
  In (k, p) result ->
  (k = startVertex /\ p = startVertex) \/ Digraph.hasEdge p k g.
Proof. apply findShortestPaths_records. Qed.

Lemma findShortestPaths_records_edges_witness :
  (3 = 1 /\ 2 = 1)
  \/ Digraph.hasEdge 2 3 (Graphs.triangle true 1%float 1%float 5%float).
Proof.
  apply (findShortestPaths_records_edges
           (fun w : float => w)
           (Graphs.triangle true 1%float 1%float 5%float)
           (fun _ => 0) 3 1 [(1, 1); (2, 1); (3, 2)] 3 2).
  - reflexivity.
  - cbn. right. right. now left.
Defined.

(** ** A start vertex that is not in the graph *)

Section AbsentStart.
Context {VertexInfo EdgeInfo : Type}.
Implicit Types (g : Digraph.t VertexInfo EdgeInfo).

(** Every vertex gets the distance [far] in the initialisation loop. *)
Lemma initial_distances (far : float) g : forall (acc : StdMap.t float) v,
  In v (Digraph.vertices g) \/ StdMap.find v acc = Some far ->
  StdMap.find v
    (fold_left
       (fun sd (iter : Z * DigraphVertex.t VertexInfo EdgeInfo) =>
          StdMap.assign (fst iter) far sd)
       g acc)
  = Some far.
Proof.
  induction g as [|[k dv] g IH]; intros acc v; cbn [fold_left fst].
  - intros [[]|H]. exact H.
  - intros H. apply IH. destruct (Z.eq_dec v k) as [->|Hne].
    + right. apply find_assign.
    + destruct H as [H|H].
      * cbn in H. destruct H as [H|H]; [congruence | now left].
      * right. now rewrite find_assign_other.
Qed.
End AbsentStart.

(** X17. [findShortestPaths] does not reject a start vertex that is not in
    the graph. On the empty graph it returns the map {start: start}. On a
    graph with vertices, no distance is below 8000000000000 in the first
    call of [findMinimum], which returns what its uninitialised local
    holds; when that is not a vertex number either, [info.at] throws
    [std::out_of_range]. *)
Theorem findShortestPaths_absent_start
        {VertexInfo EdgeInfo : Type} (weightFn : EdgeInfo -> float)
        (g : Digraph.t VertexInfo EdgeInfo) (minVerts : nat -> Z)
        (fuel : nat) (startVertex : Z) :
  ~ In startVertex (Digraph.vertices g) ->
  match g with
  | [] =>
      Digraph.findShortestPaths fuel minVerts startVertex weightFn g
      = Ok [(startVertex, startVertex)]
  | _ :: _ =>
      ~ In (minVerts O) (Digraph.vertices g) ->
      Digraph.findShortestPaths (S fuel) minVerts startVertex weightFn g
      = Throw out_of_range
  end.
Proof.
  intros Hstart. destruct g as [|[k dv] g]; [destruct fuel; reflexivity|].
  intros Hjunk. apply find_None_keys in Hjunk.
  unfold Digraph.findShortestPaths.
  set (far := 80000000000000%float).
  set (dist0 := fold_left _ ((k, dv) :: g) StdMap.empty).
  assert (Hmin : Digraph.findMinimum (minVerts O)
                   (Digraph.vertices ((k, dv) :: g))
                   (StdMap.assign startVertex 0%float dist0)
                 = Ok (minVerts O)).
  { apply findMinimumFrom_none. intros v Hv. exists far. split; [|reflexivity].
    rewrite find_assign_other by (intros ->; contradiction).
    apply initial_distances. now left. }
  change (Digraph.vertices ((k, dv) :: g))
    with (k :: Digraph.vertices g) in *.
  cbn [Digraph.settle]. rewrite Hmin. now rewrite Hjunk.
Qed.

Lemma findShortestPaths_absent_start_witness :
  Digraph.findShortestPaths 1 (fun _ => 0) 5 (fun _ : unit => 1%float)
                            Graphs.oneEdge
  = Throw out_of_range.
Proof.
  assert (H5 : ~ In 5 (Digraph.vertices Graphs.oneEdge)).
  { cbn. intros [H|[H|[]]]; discriminate H. }
  assert (H0 : ~ In 0 (Digraph.vertices Graphs.oneEdge)).
  { cbn. intros [H|[H|[]]]; discriminate H. }
  exact (findShortestPaths_absent_start (fun _ : unit => 1%float)
           Graphs.oneEdge (fun _ => 0) 0 5 H5 H0).
Defined.

(** ** The order of binary64 that the selection relies on *)

Section FloatOrder.

Lemma SFltb_trans (a b c : SpecFloat.spec_float) :
  SpecFloat.SFltb a b = true -> SpecFloat.SFltb b c = true ->
  SpecFloat.SFltb a c = true.
Proof.
  unfold SpecFloat.SFltb.
  destruct a as [sa|sa| |sa ma ea], b as [sb|sb| |sb mb eb],
    c as [sc|sc| |sc mc ec];
    cbn; try discriminate; try reflexivity;
    try (destruct sa); try (destruct sb); try (destruct sc);
    cbn; try discriminate; try reflexivity;
    fold (Pos.compare ma mb); fold (Pos.compare mb mc);
    fold (Pos.compare ma mc);
    destruct (Z.compare_spec ea eb), (Z.compare_spec eb ec),
      (Z.compare_spec ea ec);
    try lia; try discriminate; try reflexivity;
    destruct (Pos.compare_spec ma mb), (Pos.compare_spec mb mc),
      (Pos.compare_spec ma mc);
    cbn; try lia; try discriminate; try reflexivity.
Qed.

Lemma SFltb_irrefl (a : SpecFloat.spec_float) : SpecFloat.SFltb a a = false.
Proof.
  unfold SpecFloat.SFltb. destruct a as [s|s| |s m e]; cbn; try reflexivity.
  - now destruct s.
  - rewrite Z.compare_refl. fold (Pos.compare m m). rewrite Pos.compare_refl.
    now destruct s.
Qed.

Lemma ltb_trans (x y z : float) :
  PrimFloat.ltb x y = true -> PrimFloat.ltb y z = true ->
  PrimFloat.ltb x z = true.
Proof. rewrite !FloatAxioms.ltb_spec. apply SFltb_trans. Qed.

Lemma ltb_irrefl (x : float) : PrimFloat.ltb x x = false.
Proof. rewrite FloatAxioms.ltb_spec. apply SFltb_irrefl. Qed.

Lemma ltb_not_below (x y z : float) :
  PrimFloat.ltb x y = false -> PrimFloat.ltb z y = true ->
  PrimFloat.ltb x z = false.
Proof.
  intros Hxy Hzy. destruct (PrimFloat.ltb x z) eqn:Hxz; [|reflexivity].
  rewrite (ltb_trans x z y Hxz Hzy) in Hxy. discriminate.
Qed.

Lemma ltb_asym (x y : float) :
  PrimFloat.ltb x y = true -> PrimFloat.ltb y x = false.
Proof.
  intros Hxy. destruct (PrimFloat.ltb y x) eqn:Hyx; [|reflexivity].
  rewrite <- (ltb_irrefl x). symmetry. now apply (ltb_trans x y x).
Qed.

(** The loop of [findMinimum]: either nothing is below [minVal] and the
    candidate it started with comes back, or the result is a listed
    vertex below [minVal] that no listed vertex is below. *)
Lemma findMinimumFrom_minimal (vertices : list Z) (shortestDist : StdMap.t float) :
  forall minVal minVert r,
    Digraph.findMinimumFrom vertices shortestDist minVal minVert = Ok r ->
    (r = minVert
     /\ forall v d, In v vertices -> StdMap.find v shortestDist = Some d ->
                    PrimFloat.ltb d minVal = false)
    \/ (In r vertices
        /\ exists dr,
             StdMap.find r shortestDist = Some dr
             /\ PrimFloat.ltb dr minVal = true
             /\ forall v d, In v vertices ->
                            StdMap.find v shortestDist = Some d ->
                            PrimFloat.ltb d dr = false).
Proof.
  induction vertices as [|v vertices IH]; intros minVal minVert r;
    cbn [Digraph.findMinimumFrom].
  - intros [= <-]. left. split; [reflexivity | intros ? ? []].
  - destruct (StdMap.find v shortestDist) as [d|] eqn:Hd; [|discriminate].
    destruct (PrimFloat.ltb d minVal) eqn:Hlt; intros Hrun;
      apply IH in Hrun as [[-> Hnone]|[Hin [dr [Hdr [Hbelow Hmin]]]]].
    + right. split; [now left|]. exists d. split; [assumption|].
      split; [assumption|].
      intros v' d' [<-|Hv'] Hd'.
      * assert (d' = d) by congruence. subst d'. apply ltb_irrefl.
      * now apply (Hnone v').
    + right. split; [now right|]. exists dr. split; [assumption|].
      split; [now apply (ltb_trans dr d minVal)|].
      intros v' d' [<-|Hv'] Hd'.
      * assert (d' = d) by congruence. subst d'. now apply ltb_asym.
      * now apply (Hmin v').
    + left. split; [reflexivity|].
      intros v' d' [<-|Hv'] Hd'; [congruence | now apply (Hnone v')].
    + right. split; [now right|]. exists dr. split; [assumption|].
      split; [assumption|].
      intros v' d' [<-|Hv'] Hd'.
      * assert (d' = d) by congruence. subst d'.
        now apply (ltb_not_below d minVal dr).
      * now apply (Hmin v').
Qed.
End FloatOrder.

(** X18. Whatever [findMinimum] returns is either the value of its
    uninitialised local, and then no listed vertex has a distance below
    8000000000000, or a listed vertex whose distance is below
    8000000000000 and is minimal: no listed vertex has a distance below
    it. *)
Theorem findMinimum_returns_minimum
        (minVert0 : Z) (vertices : list Z) (shortestDist : StdMap.t float)
        (r : Z) :
  Digraph.findMinimum minVert0 vertices shortestDist = Ok r ->
  (r = minVert0
   /\ forall v d, In v vertices -> StdMap.find v shortestDist = Some d ->
                  PrimFloat.ltb d 8000000000000%float = false)
  \/ (In r vertices
      /\ exists dr,
           StdMap.find r shortestDist = Some dr
           /\ PrimFloat.ltb dr 8000000000000%float = true
           /\ forall v d, In v vertices ->
                          StdMap.find v shortestDist = Some d ->
                          PrimFloat.ltb d dr = false).
Proof. apply findMinimumFrom_minimal. Qed.

Lemma findMinimum_returns_minimum_witness :
  (2 = 0
   /\ forall v d, In v [1; 2; 3] ->
                  StdMap.find v [(1, 5%float); (2, 1%float); (3, 1%float)]
                  = Some d ->
                  PrimFloat.ltb d 8000000000000%float = false)
  \/ (In 2 [1; 2; 3]
      /\ exists dr,
           StdMap.find 2 [(1, 5%float); (2, 1%float); (3, 1%float)] = Some dr
           /\ PrimFloat.ltb dr 8000000000000%float = true
           /\ forall v d, In v [1; 2; 3] ->
                          StdMap.find v [(1, 5%float); (2, 1%float); (3, 1%float)]
                          = Some d ->
                          PrimFloat.ltb d dr = false).
Proof.
  apply (findMinimum_returns_minimum 0 [1; 2; 3]
           [(1, 5%float); (2, 1%float); (3, 1%float)] 2).
  reflexivity.
Defined.

(** ** The entry of the start vertex *)

Section StartEntry.
Context {VertexInfo EdgeInfo : Type}.
Context (weightFn : EdgeInfo -> float).
Implicit Types (g : Digraph.t VertexInfo EdgeInfo)
               (l : list (DigraphEdge.t EdgeInfo)).

Lemma assign_keeps_key {V : Type} (k x : Z) (v : V) (m : StdMap.t V) :
  StdMap.find x m <> None -> StdMap.find x (StdMap.assign k v m) <> None.
Proof.
  intros Hx. destruct (Z.eq_dec x k) as [->|Hne].
  - now rewrite find_assign.
  - now rewrite find_assign_other.
Qed.

Lemma relax_keeps_key current l (x : Z) : forall shortestDist shortestPath,
  StdMap.find x shortestPath <> None ->
  StdMap.find x
    (snd (Digraph.relax weightFn current l shortestDist shortestPath))
  <> None.
Proof.
  induction l as [|it l IH]; intros sd sp Hx; cbn [Digraph.relax].
  - exact Hx.
  - destruct (StdMap.index 0%float current sd) as [dcur sd1].
    destruct (StdMap.index 0%float (DigraphEdge.toVertex it) sd1) as [dto sd2].
    destruct (PrimFloat.ltb _ dto); apply IH; [|exact Hx].
    now apply assign_keeps_key.
Qed.

Lemma settle_keeps_key g minVerts fuel (x : Z) :
  forall i unvisited shortestDist shortestPath result,
    Digraph.settle fuel minVerts i weightFn g unvisited
                   shortestDist shortestPath = Ok result ->
    StdMap.find x shortestPath <> None ->
    StdMap.find x result <> None.
Proof.
  induction fuel as [|fuel IH]; intros i unvisited sd sp result;
    destruct unvisited as [|u unvisited]; cbn [Digraph.settle];
    try discriminate; try (intros [= <-]; tauto).
  destruct (Digraph.findMinimum _ _ _) as [current| | |]; try discriminate.
  destruct (StdMap.find current g) as [dv|]; try discriminate.
  pose proof (relax_keeps_key current (DigraphVertex.edges dv) x sd sp) as Hr.
  destruct (Digraph.relax _ _ _ _ _) as [sd' sp']. cbn [snd] in Hr.
  intros Hs Hx. apply (IH _ _ _ _ _ Hs). now apply Hr.
Qed.
End StartEntry.

(** X19. Whenever [findShortestPaths] returns, the start vertex is a key
    of the returned map, and when no edge of the graph enters the start
    vertex, it maps to itself. *)
Theorem findShortestPaths_start_entry
        {VertexInfo EdgeInfo : Type} (weightFn : EdgeInfo -> float)
        (g : Digraph.t VertexInfo EdgeInfo) (minVerts : nat -> Z)
        (fuel : nat) (startVertex : Z) (result : StdMap.t Z) :
  Digraph.findShortestPaths fuel minVerts startVertex weightFn g = Ok result ->
  (exists p, StdMap.find startVertex result = Some p)
  /\ ((forall p, ~ Digraph.hasEdge p startVertex g) ->
      StdMap.find startVertex result = Some startVertex).
Proof.
  intros Hs.
  assert (Hkey : StdMap.find startVertex result <> None).
  { unfold Digraph.findShortestPaths in Hs.
    apply (settle_keeps_key weightFn g minVerts fuel startVertex _ _ _ _ _ Hs).
    cbn. now rewrite Z.eqb_refl. }
  destruct (StdMap.find startVertex result) as [p|] eqn:Hf; [|contradiction].
  split; [now exists p|]. intros Hnone.
  destruct (findShortestPaths_records weightFn g minVerts fuel
              startVertex result startVertex p Hs (find_In _ _ _ Hf))
    as [[_ ->]|He]; [reflexivity|].
  now apply Hnone in He.
Qed.

Lemma findShortestPaths_start_entry_witness :
  (exists p, StdMap.find 1 [(1, 1); (2, 1); (3, 2)] = Some p)
  /\ ((forall p, ~ Digraph.hasEdge p 1
                    (Graphs.triangle true 1%float 1%float 5%float)) ->
      StdMap.find 1 [(1, 1); (2, 1); (3, 2)] = Some 1).
Proof.
  apply (findShortestPaths_start_entry
           (fun w : float => w)
           (Graphs.triangle true 1%float 1%float 5%float)
           (fun _ => 0) 3 1 [(1, 1); (2, 1); (3, 2)]).
  reflexivity.
Defined.

(** ** Copying and moving *)

(** A move constructor leaves the source empty; a move assignment leaves
    in the source what the target held. *)
Lemma moves_swap {VertexInfo EdgeInfo : Type}
      (this d : Digraph.t VertexInfo EdgeInfo) :
  Digraph.moveConstruct d = (d, Digraph.empty)
  /\ Digraph.moveAssign this d = (d, this)
  /\ Digraph.copyFrom d = (d, d).
Proof. repeat split. Qed.

(** ** Counting vertices *)

Section CountingVertices.
Context {VertexInfo EdgeInfo : Type}.
Implicit Types (g : Digraph.t VertexInfo EdgeInfo).

Lemma to_int_small (z : Z) : - 2 ^ 31 <= z < 2 ^ 31 -> to_int z = z.
Proof.
  intros Hz. unfold to_int. rewrite Z.mod_small; lia.
Qed.

Lemma erase_length {V : Type} (k : Z) (v : V) (m : StdMap.t V) :
  StdMap.find k m = Some v -> S (length (StdMap.erase k m)) = length m.
Proof.
  induction m as [|[k' v'] m IH]; cbn; [discriminate|].
  destruct (k =? k'); cbn; [reflexivity|].
  intros H. now rewrite (IH H).
Qed.

Lemma vertexCount_length g :
  Z.of_nat (length (Digraph.vertices g)) < 2 ^ 31 ->
  Digraph.vertexCount g = Z.of_nat (length (Digraph.vertices g)).
Proof.
  intros Hsmall. unfold Digraph.vertexCount, StdMap.size.
  unfold Digraph.vertices, StdMap.keys in *. rewrite length_map in *.
  apply to_int_small. lia.
Qed.
End CountingVertices.

(** X20. On a graph built by public calls with fewer than 2^31 - 1
    vertices, [vertexCount()] is the length of [vertices()]; a call of
    [addVertex] that returns normally raises it by one, and a call of
    [removeVertex] that returns normally lowers it by one. *)
Theorem vertexCount_follows_calls
        {VertexInfo EdgeInfo : Type} (g : Digraph.t VertexInfo EdgeInfo) :
  Digraph.built g ->
  Z.of_nat (length (Digraph.vertices g)) < 2 ^ 31 - 1 ->
  Digraph.vertexCount g = Z.of_nat (length (Digraph.vertices g))
  /\ (forall v vi g',
        Digraph.addVertex v vi g = Digraph.Done tt g' ->
        Digraph.vertexCount g' = Digraph.vertexCount g + 1)
  /\ (forall v g',
        Digraph.removeVertex v g = Digraph.Done tt g' ->
        Digraph.vertexCount g' = Digraph.vertexCount g - 1).
Proof.
  intros Hb Hsmall. destruct (built_maintained g Hb) as [[Hasc _] _].
  assert (Hlen : length (Digraph.vertices g) = length g)
    by apply length_map.
  split; [apply vertexCount_length; lia|]. split.
  - intros v vi g' Hadd.
    assert (Hf : StdMap.find v g = None).
    { destruct (StdMap.find v g) as [dv|] eqn:Hf; [|reflexivity].
      assert (Hin : In v (Digraph.vertices g))
        by (apply find_Some_keys; congruence).
      rewrite (addVertex_rejected g v vi Hin) in Hadd. discriminate. }
    apply addVertex_Done in Hadd as ->.
    assert (Hlen' : length (Digraph.vertices
                              (StdMap.insert v (DigraphVertex.Build vi []) g))
                    = S (length g)).
    { unfold Digraph.vertices, StdMap.keys. rewrite length_map.
      now apply insert_length. }
    rewrite !vertexCount_length; lia.
  - intros v g' Hrem.
    assert (Hf : exists dv, StdMap.find v g = Some dv).
    { destruct (StdMap.find v g) as [dv|] eqn:Hf; [now exists dv|].
      apply find_None_keys in Hf.
      rewrite (removeVertex_rejected g v Hf) in Hrem. discriminate. }
    destruct Hf as [dv Hf].
    apply removeVertex_Done in Hrem.
    rewrite (erase_absent v (StdMap.erase v g) (find_erase_ascending v g Hasc))
      in Hrem.
    subst g'. pose proof (erase_length v dv g Hf) as Hlen'.
    assert (Hlen'' : length (Digraph.vertices (StdMap.erase v g))
                     = length (StdMap.erase v g))
      by apply length_map.
    rewrite !vertexCount_length; lia.
Qed.

Lemma vertexCount_follows_calls_witness :
  Digraph.vertexCount Graphs.oneEdge
  = Z.of_nat (length (Digraph.vertices Graphs.oneEdge))
  /\ (forall v vi g',
        Digraph.addVertex v vi Graphs.oneEdge = Digraph.Done tt g' ->
        Digraph.vertexCount g' = Digraph.vertexCount Graphs.oneEdge + 1)
  /\ (forall v g',
        Digraph.removeVertex v Graphs.oneEdge = Digraph.Done tt g' ->
        Digraph.vertexCount g' = Digraph.vertexCount Graphs.oneEdge - 1).
Proof.
  apply (vertexCount_follows_calls Graphs.oneEdge).
  - exists [Digraph.AddVertex 1 tt; Digraph.AddVertex 2 tt;
            Digraph.AddEdge 1 2 tt].
    reflexivity.
  - cbn. lia.
Defined.

(** X21. On a graph built by public calls, for a vertex [v]:
    [removeVertex(v)] has no defined outcome when [edges()] contains a
    pair (a, v) with [a] other than [v], and returns normally when it
    contains none. *)
Theorem removeVertex_defined_iff_no_incoming
        {VertexInfo EdgeInfo : Type} (g : Digraph.t VertexInfo EdgeInfo)
        (v : Z) :
  Digraph.built g ->
  In v (Digraph.vertices g) ->
  ((exists a, a <> v /\ In (a, v) (Digraph.edges g)) ->
   Digraph.removeVertex v g = Digraph.UB)
  /\ ((forall a, In (a, v) (Digraph.edges g) -> a = v) ->
      exists g', Digraph.removeVertex v g = Digraph.Done tt g').
Proof.
  intros Hb Hv. destruct (built_maintained g Hb) as [[Hasc Hst] _].
  rewrite (removeVertex_present g v Hv). split.
  - intros [a [Hne Hin]].
    apply edges_stored in Hin as [k [dv [it [Hk [Hit [= -> Hto]]]]]].
    destruct (Hst k dv Hk) as [Hown _]. rewrite (Hown it Hit) in Hne.
    assert (Hex : existsb
              (fun iter : Z * DigraphVertex.t VertexInfo EdgeInfo =>
                 existsb (fun it => DigraphEdge.toVertex it =? v)
                         (DigraphVertex.edges (snd iter)))
              (StdMap.erase v g) = true).
    { apply existsb_exists. exists (k, dv).
      split; [now apply erase_In_other|].
      apply existsb_exists. exists it.
      split; [assumption | now apply Z.eqb_eq]. }
    now rewrite Hex.
  - intros Hnone.
    destruct (existsb _ (StdMap.erase v g)) eqn:Hex; [|now eexists].
    apply existsb_exists in Hex as [[k dv] [Hk Hex]]. cbn [snd] in Hex.
    apply existsb_exists in Hex as [it [Hit Hto]]. apply Z.eqb_eq in Hto.
    pose proof (erase_In_key v g k dv Hasc Hk) as Hne.
    apply erase_In in Hk. destruct (Hst k dv Hk) as [Hown _].
    exfalso. apply Hne. apply Hnone. apply edges_stored.
    exists k, dv, it. split; [assumption|]. split; [assumption|].
    now rewrite (Hown it Hit), Hto.
Qed.

Lemma removeVertex_defined_iff_no_incoming_witness :
  ((exists a, a <> 2 /\ In (a, 2) (Digraph.edges Graphs.oneEdge)) ->
   Digraph.removeVertex 2 Graphs.oneEdge = Digraph.UB)
  /\ ((forall a, In (a, 2) (Digraph.edges Graphs.oneEdge) -> a = 2) ->
      exists g', Digraph.removeVertex 2 Graphs.oneEdge = Digraph.Done tt g').
Proof.
  apply (removeVertex_defined_iff_no_incoming Graphs.oneEdge 2).
  - exists [Digraph.AddVertex 1 tt; Digraph.AddVertex 2 tt;
            Digraph.AddEdge 1 2 tt].
    reflexivity.
  - cbn. right. now left.
Defined.
